(** * ethereal: the contract value codec and the base-fee cache

    A shallow embedding of [cmd/contract.go] (contractUnpack,
    contractStringToValue, contractValueToString) and of
    [conn/currentbasefee.go] (CurrentBaseFee), together with the parts of
    the Go standard library and of go-ethereum that these functions call.

    Conventions.
    - A Go [string] is a sequence of bytes: [string] of [ascii].
    - A Go [byte]/[uint8] is a [Z] in [0, 256); [[]byte] is [list Z].
    - A [*big.Int] is a [Z]; fixed-width integers are a [Z] with the
      wrap-around of each conversion written out.
    - A Go function returning [(T, error)] returns a pair of options, nil
      being [None]; a run-time panic is the outcome [Panic]. *)

Set Warnings "-register-all".
From Stdlib Require Import ZArith Lia Ascii String List Bool.
From stdpp Require Import base option list strings gmap.

Local Open Scope string_scope.
Local Open Scope Z_scope.

(** ** Outcomes *)

(** A call either returns or panics. *)
Inductive outcome (A : Type) : Type :=
| Return (a : A)
| Panic.
Arguments Return {A} a.
Arguments Panic {A}.

(** The code of a character, and the character of a code. *)
Definition code (c : ascii) : Z := Z.of_N (N_of_ascii c).
Definition chr (z : Z) : ascii := ascii_of_N (Z.to_N z).

Definition is_byte (b : Z) : Prop := 0 <= b < 256.
Definition is_byteb (b : Z) : bool := (0 <=? b) && (b <? 256).

(** ** Package strings *)
Module strings.

(** Is [c] one of the bytes of [cutset]? *)
Fixpoint IndexByte (cutset : string) (c : ascii) : bool :=
  match cutset with
  | EmptyString => false
  | String d rest => if Ascii.eqb c d then true else IndexByte rest c
  end.

Fixpoint TrimLeft (s cutset : string) : string :=
  match s with
  | EmptyString => EmptyString
  | String c rest => if IndexByte cutset c then TrimLeft rest cutset else s
  end.

Fixpoint TrimRight (s cutset : string) : string :=
  match s with
  | EmptyString => EmptyString
  | String c rest =>
      match TrimRight rest cutset with
      | EmptyString => if IndexByte cutset c then EmptyString else String c EmptyString
      | r => String c r
      end
  end.

(** [strings.Trim(s, cutset)]: [s] without the leading and trailing bytes
    that belong to [cutset]. *)
Definition Trim (s cutset : string) : string :=
  TrimRight (TrimLeft s cutset) cutset.

Fixpoint HasPrefix (s prefix : string) {struct prefix} : bool :=
  match prefix, s with
  | EmptyString, _ => true
  | String p prefix', String c s' => Ascii.eqb c p && HasPrefix s' prefix'
  | String _ _, EmptyString => false
  end.

Fixpoint drop_bytes (n : nat) (s : string) : string :=
  match n, s with
  | O, _ => s
  | S n', String _ s' => drop_bytes n' s'
  | S _, EmptyString => EmptyString
  end.

(** [strings.TrimPrefix(s, prefix)]: [s[len(prefix):]] when [s] starts
    with [prefix], [s] otherwise. *)
Definition TrimPrefix (s prefix : string) : string :=
  if HasPrefix s prefix then drop_bytes (String.length prefix) s else s.

(** [strings.Join(elems, sep)]. *)
Fixpoint Join (elems : list string) (sep : string) : string :=
  match elems with
  | [] => EmptyString
  | [e] => e
  | e :: rest => e +:+ sep +:+ Join rest sep
  end.

End strings.

(** ** Package encoding/hex *)
Module hex.

Inductive error : Type :=
| InvalidByteError (c : ascii)
| ErrLength.

(** [hextable = "0123456789abcdef"], indexed by a nibble. *)
Definition hextable (n : Z) : ascii :=
  if n <? 10 then chr (code "0" + n) else chr (code "a" + (n - 10)).

(** [fromHexChar]: the value of a hex digit of either case. *)
Definition fromHexChar (c : ascii) : option Z :=
  let k := code c in
  if (code "0" <=? k) && (k <=? code "9") then Some (k - code "0")
  else if (code "a" <=? k) && (k <=? code "f") then Some (k - code "a" + 10)
  else if (code "A" <=? k) && (k <=? code "F") then Some (k - code "A" + 10)
  else None.

(** [hex.EncodeToString]: two lower-case digits per byte. *)
Fixpoint EncodeToString (src : list Z) : string :=
  match src with
  | [] => EmptyString
  | v :: rest =>
      String (hextable (Z.shiftr v 4))
        (String (hextable (Z.land v 15)) (EncodeToString rest))
  end.

(** [hex.DecodeString]: the bytes decoded before the first error, and that
    error. An invalid digit is reported before an odd length. *)
Fixpoint DecodeString (s : string) : list Z * option error :=
  match s with
  | EmptyString => ([], None)
  | String p EmptyString =>
      match fromHexChar p with
      | None => ([], Some (InvalidByteError p))
      | Some _ => ([], Some ErrLength)
      end
  | String p (String q rest) =>
      match fromHexChar p with
      | None => ([], Some (InvalidByteError p))
      | Some a =>
          match fromHexChar q with
          | None => ([], Some (InvalidByteError q))
          | Some b =>
              let '(ds, e) := DecodeString rest in
              (Z.lor (Z.shiftl a 4) b :: ds, e)
          end
      end
  end.

End hex.

(** ** Package math/big *)
Module big.

(** The value of a digit character in a base of at most 36, as [nat.scan]
    computes it; [None] for any other byte. *)
Definition digitVal (c : ascii) : option Z :=
  let k := code c in
  if (code "0" <=? k) && (k <=? code "9") then Some (k - code "0")
  else if (code "a" <=? k) && (k <=? code "z") then Some (k - code "a" + 10)
  else if (code "A" <=? k) && (k <=? code "Z") then Some (k - code "A" + 10)
  else None.

(** The digits of a number: every byte must be a digit below [base],
    since [SetString] requires the entire string to be consumed. *)
Fixpoint scan (s : string) (base : Z) (acc : Z) : option Z :=
  match s with
  | EmptyString => Some acc
  | String c rest =>
      match digitVal c with
      | Some d => if d <? base then scan rest base (acc * base + d) else None
      | None => None
      end
  end.

(** [Int.SetString(s, base)] for an explicit base in [2, 36] (the
    code passes 10): an optional sign, then at least one digit, and
    nothing else. [None] is the [false] of the Go function. *)
Definition SetString (s : string) (base : Z) : option Z :=
  let '(neg, body) :=
    match s with
    | String c rest =>
        if Ascii.eqb c "-" then (true, rest)
        else if Ascii.eqb c "+" then (false, rest)
        else (false, s)
    | EmptyString => (false, s)
    end in
  match body with
  | EmptyString => None
  | _ =>
      match scan body base 0 with
      | Some n => Some (if neg then - n else n)
      | None => None
      end
  end.

(** [Int.Uint64()]: [low64(x.abs)], the low 64 bits of the magnitude. *)
Definition Uint64 (x : Z) : Z := Z.abs x mod 2 ^ 64.

End big.

(** Conversions between integer types: [uintN(u)] keeps the low [N] bits,
    [intN(u)] reads them as a two's complement number. *)
Definition to_uint (width : Z) (u : Z) : Z := u mod 2 ^ width.
Definition to_int (width : Z) (u : Z) : Z :=
  (u + 2 ^ (width - 1)) mod 2 ^ width - 2 ^ (width - 1).

(** ** Package fmt *)
Module fmt.

(** The digit loop of [strconv]: least significant digit first, written
    in front of what is already there. *)
Fixpoint formatBits (fuel : nat) (u : Z) (acc : string) : string :=
  match fuel with
  | O => acc
  | S fuel' =>
      if u <? 10 then String (chr (code "0" + u)) acc
      else formatBits fuel' (u / 10) (String (chr (code "0" + u mod 10)) acc)
  end.

(** The base-10 text of an integer, as [%v] prints a fixed-width integer
    and a [*big.Int]: a minus sign for a negative value, then the digits
    of the magnitude. The magnitude has at most [log2 + 1] digits. *)
Definition FormatInt (z : Z) : string :=
  let digits := formatBits (S (Z.to_nat (Z.log2 (Z.abs z)))) (Z.abs z) EmptyString in
  if z <? 0 then String "-" digits else digits.

End fmt.

(** ** Package common (go-ethereum) *)
Module common.

Definition AddressLength : nat := 20.
Definition HashLength : nat := 32.

Definition has0xPrefix (s : string) : bool :=
  match s with
  | String c0 (String c1 _) =>
      Ascii.eqb c0 "0" && (Ascii.eqb c1 "x" || Ascii.eqb c1 "X")
  | _ => false
  end.

(** [Hex2Bytes]: [h, _ := hex.DecodeString(str)], the error is dropped. *)
Definition Hex2Bytes (str : string) : list Z := fst (hex.DecodeString str).

Definition FromHex (s : string) : list Z :=
  let s := if has0xPrefix s then strings.drop_bytes 2 s else s in
  let s := if Nat.odd (String.length s) then String "0" s else s in
  Hex2Bytes s.

(** [SetBytes] of [Address] and [Hash]: the last [n] bytes of [b] when
    [b] is longer, [b] right-aligned in [n] zero bytes otherwise. *)
Definition SetBytes (n : nat) (b : list Z) : list Z :=
  let b := if (n <? length b)%nat then drop (length b - n) b else b in
  (replicate (n - length b) 0 ++ b)%list.

Definition BytesToAddress (b : list Z) : list Z := SetBytes AddressLength b.
Definition HexToAddress (s : string) : list Z := BytesToAddress (FromHex s).
Definition BytesToHash (b : list Z) : list Z := SetBytes HashLength b.
Definition HexToHash (s : string) : list Z := BytesToHash (FromHex s).

Definition bytes_of_string (s : string) : list Z :=
  map code (list_ascii_of_string s).

(** The loop of [checksumHex] from digit [j] on: a letter becomes upper
    case when the matching nibble of the hash is above 7. *)
Fixpoint checksum (hash : list Z) (j : nat) (digits : string) : string :=
  match digits with
  | EmptyString => EmptyString
  | String c rest =>
      let hashByte := nth (j / 2) hash 0 in
      let hashByte :=
        if Nat.even j then Z.shiftr hashByte 4 else Z.land hashByte 15 in
      let c' :=
        if (code "9" <? code c) && (7 <? hashByte)
        then chr ((code c - 32) mod 256) else c in
      String c' (checksum hash (S j) rest)
  end.

(** [Address.Hex()]: the checksummed form. [Keccak256] is the legacy
    Keccak-256 of go-ethereum's crypto package, applied to the lower-case
    digits. *)
Definition Address_Hex (Keccak256 : list Z -> list Z) (a : list Z) : string :=
  let digits := hex.EncodeToString a in
  String "0" (String "x" (checksum (Keccak256 (bytes_of_string digits)) 0 digits)).

(** [Hash.Hex()]: [hexutil.Encode(h[:])]. *)
Definition Hash_Hex (h : list Z) : string :=
  String "0" (String "x" (hex.EncodeToString h)).

End common.

(** ** Package abi (go-ethereum): type descriptors *)
Module abi.

(** The type tags, in the order of the [iota] block. *)
Inductive kind : Type :=
| IntTy | UintTy | BoolTy | StringTy | SliceTy | ArrayTy | TupleTy
| AddressTy | FixedBytesTy | BytesTy | HashTy | FixedPointTy | FunctionTy.

(** [abi.Type]: the fields the codec reads. [Elem] is a pointer, nil
    unless the type is a slice or an array. *)
Inductive Type_ : Type :=
  mkType { Elem : option Type_; Size : Z; T : kind }.

Record Argument : Type := mkArgument { Arg_Name : string; Arg_Type : Type_ }.

Record Method : Type := mkMethod { Method_Name : string; Outputs : list Argument }.

Record ABI : Type := mkABI { Methods : gmap string Method }.

End abi.

(** ** Values held in an [interface{}] *)
Inductive value : Type :=
| VInt (width : Z) (z : Z)      (* int8, int16, int32, int64 *)
| VUint (width : Z) (z : Z)     (* uint8, uint16, uint32, uint64 *)
| VBigInt (z : Z)               (* *big.Int *)
| VBool (b : bool)
| VString (s : string)
| VAddress (a : list Z)         (* common.Address, [20]byte *)
| VHash (h : list Z)            (* common.Hash, [32]byte *)
| VByteArray (bs : list Z)      (* [n]uint8 *)
| VBytes (bs : list Z)          (* []byte *)
| VSlice (vs : list value).     (* any other slice or array *)

(** The errors of the two packages. [External] stands for an error made by
    a collaborator (the ABI decoder, the chain client, the wei parser). *)
Inductive error : Type :=
| BadInteger (val : string)
| UnhandledTypeSlice (t : abi.Type_)
| UnhandledTypeArray (t : abi.Type_)
| InvalidByteSize (size : Z)
| UnhandledType (t : abi.Type_)
| UnknownType (t : abi.Type_)
| MethodDoesNotExist (name : string)
| HexError (e : hex.error)
| External (msg : string).

(** An error whose message starts with "Unhandled type". *)
Definition is_unhandled (e : error) : bool :=
  match e with
  | UnhandledTypeSlice _ | UnhandledTypeArray _ | UnhandledType _ => true
  | _ => false
  end.

(** ** Package reflect, as far as the codec uses it *)
Module reflect.

(** [ValueOf(val)] as a sequence: the elements [Index(i).Interface()] for
    [i] below [Len()]; [None] when [Len] panics because the value is
    neither an array, a slice nor a string. *)
Definition elems (val : value) : option (list value) :=
  match val with
  | VSlice vs => Some vs
  | VAddress bs | VHash bs | VByteArray bs | VBytes bs => Some (map (VUint 8) bs)
  | VString s => Some (map (fun c => VUint 8 (code c)) (list_ascii_of_string s))
  | VInt _ _ | VUint _ _ | VBigInt _ | VBool _ => None
  end.

(** [Value.Uint()]: the value of an unsigned integer, a panic otherwise. *)
Definition Uint (v : value) : option Z :=
  match v with
  | VUint _ z => Some z
  | _ => None
  end.

End reflect.

(** ** Package cmd: contract.go *)
Section Contract.

(** Legacy Keccak-256, used only by the checksum of [Address.Hex]. *)
Variable Keccak256 : list Z -> list Z.

(** [fmt.Sprintf("%v", val)]. An address and a hash are byte arrays
    without a formatting method, and print as the list of their bytes. *)
Fixpoint Sprintv (val : value) : string :=
  match val with
  | VInt _ z | VUint _ z | VBigInt z => fmt.FormatInt z
  | VBool b => if b then "true" else "false"
  | VString s => s
  | VAddress bs | VHash bs | VByteArray bs | VBytes bs =>
      "[" +:+ strings.Join (map fmt.FormatInt bs) " " +:+ "]"
  | VSlice vs =>
      "[" +:+ strings.Join (map Sprintv vs) " " +:+ "]"
  end.

(** The runtime's limit on the length of a byte slice ([maxAlloc] of the
    Go runtime on 64-bit Linux). *)
Definition maxAlloc : Z := 2 ^ 48.

(** [make([]byte, n)]: [n] zero bytes; the runtime panics ("makeslice: len
    out of range") for a negative [n] and for one above its limit. *)
Definition make_bytes (n : Z) : option (list Z) :=
  if (n <? 0) || (maxAlloc <? n) then None else Some (replicate (Z.to_nat n) 0).

(** [copy(slice[lo:hi], src)]: the slice expression panics unless
    [0 <= lo <= hi <= cap(slice)]; [copy] then writes as many bytes as
    fit. *)
Definition copy_into (slice : list Z) (lo hi : Z) (src : list Z) : option (list Z) :=
  if (0 <=? lo) && (lo <=? hi) && (hi <=? Z.of_nat (length slice)) then
    let n := Nat.min (Z.to_nat (hi - lo)) (length src) in
    Some (take (Z.to_nat lo) slice ++ take n src ++ drop (Z.to_nat lo + n) slice)%list
  else None.

Definition contractStringToValue (argType : abi.Type_) (val : string)
  : outcome (option value * option error) :=
  let val := strings.Trim val " " in
  match abi.T argType with
  | abi.IntTy =>
      match big.SetString val 10 with
      | None => Return (None, Some (BadInteger val))
      | Some res =>
          if abi.Size argType =? 8 then Return (Some (VInt 8 (to_int 8 (big.Uint64 res))), None)
          else if abi.Size argType =? 16 then Return (Some (VInt 16 (to_int 16 (big.Uint64 res))), None)
          else if abi.Size argType =? 32 then Return (Some (VInt 32 (to_int 32 (big.Uint64 res))), None)
          else if abi.Size argType =? 64 then Return (Some (VInt 64 (to_int 64 (big.Uint64 res))), None)
          else Return (Some (VBigInt res), None)
      end
  | abi.UintTy =>
      match big.SetString val 10 with
      | None => Return (None, Some (BadInteger val))
      | Some res =>
          if abi.Size argType =? 8 then Return (Some (VUint 8 (to_uint 8 (big.Uint64 res))), None)
          else if abi.Size argType =? 16 then Return (Some (VUint 16 (to_uint 16 (big.Uint64 res))), None)
          else if abi.Size argType =? 32 then Return (Some (VUint 32 (to_uint 32 (big.Uint64 res))), None)
          else if abi.Size argType =? 64 then Return (Some (VUint 64 (to_uint 64 (big.Uint64 res))), None)
          else Return (Some (VBigInt res), None)
      end
  | abi.BoolTy =>
      if String.eqb val "true" || String.eqb val "True" || String.eqb val "1"
      then Return (Some (VBool true), None)
      else Return (Some (VBool false), None)
  | abi.StringTy => Return (Some (VString val), None)
  | abi.SliceTy => Return (None, Some (UnhandledTypeSlice argType))
  | abi.ArrayTy => Return (None, Some (UnhandledTypeArray argType))
  | abi.AddressTy => Return (Some (VAddress (common.HexToAddress val)), None)
  | abi.FixedBytesTy =>
      match make_bytes (abi.Size argType) with
      | None => Panic
      | Some slice =>
          let '(decoded, err) := hex.DecodeString (strings.TrimPrefix val "0x") in
          let copied :=
            match err with
            | None =>
                copy_into slice (abi.Size argType - Z.of_nat (length decoded))
                  (abi.Size argType) decoded
            | Some _ => Some slice
            end in
          match copied with
          | None => Panic
          | Some slice =>
              (* the switch over the sizes 1 to 32: an array of that many
                 bytes read from the start of [slice] *)
              if (1 <=? abi.Size argType) && (abi.Size argType <=? 32)
              then Return (Some (VByteArray slice), None)
              else Return (None, Some (InvalidByteSize (abi.Size argType)))
          end
      end
  | abi.BytesTy =>
      let '(decoded, err) := hex.DecodeString (strings.TrimPrefix val "0x") in
      Return (Some (VBytes decoded), option_map HexError err)
  | abi.HashTy => Return (Some (VHash (common.HexToHash val)), None)
  | abi.FixedPointTy => Return (None, Some (UnhandledType argType))
  | abi.FunctionTy => Return (None, Some (UnhandledType argType))
  | _ => Return (None, Some (UnknownType argType))
  end.

(** The package variable [err] after a call of [contractStringToValue]
    that returns: the FixedBytes case assigns the decoder's error to it
    ([decoded, err = hex.DecodeString(...)]), the other cases leave it. *)
Definition contractStringToValue_err (argType : abi.Type_) (val : string)
    (err : option error) : option error :=
  let val := strings.Trim val " " in
  match abi.T argType with
  | abi.FixedBytesTy =>
      option_map HexError (snd (hex.DecodeString (strings.TrimPrefix val "0x")))
  | _ => err
  end.

(** The element loop of the Slice and Array cases. [render] is the
    recursive call at [*argType.Elem]; it is [None] when that pointer is
    nil, and dereferencing it panics at the first element. *)
Fixpoint render_elems (render : option (value -> outcome (string * option error)))
    (arrayVal : list value) : outcome (list string + error) :=
  match arrayVal with
  | [] => Return (inl [])
  | v :: rest =>
      match render with
      | None => Panic
      | Some f =>
          match f v with
          | Panic => Panic
          | Return (_, Some err) => Return (inr err)
          | Return (elemRes, None) =>
              match render_elems render rest with
              | Return (inl res) => Return (inl (elemRes :: res))
              | other => other
              end
          end
      end
  end.

Fixpoint contractValueToString (argType : abi.Type_) (val : value) {struct argType}
  : outcome (string * option error) :=
  let container (elem : option abi.Type_) :=
    match reflect.elems val with
    | None => Panic
    | Some arrayVal =>
        let render :=
          match elem with
          | Some e => Some (contractValueToString e)
          | None => None
          end in
        match render_elems render arrayVal with
        | Panic => Panic
        | Return (inr err) => Return ("", Some err)
        | Return (inl res) => Return ("[" +:+ strings.Join res "," +:+ "]", None)
        end
    end in
  match argType with
  | abi.mkType elem _ t =>
      match t with
      | abi.IntTy => Return (Sprintv val, None)
      | abi.UintTy => Return (Sprintv val, None)
      | abi.BoolTy =>
          match val with
          | VBool b => if b then Return ("true", None) else Return ("false", None)
          | _ => Panic
          end
      | abi.StringTy =>
          match val with
          | VString s => Return (s, None)
          | _ => Panic
          end
      | abi.SliceTy => container elem
      | abi.ArrayTy => container elem
      | abi.AddressTy =>
          match val with
          | VAddress a => Return (common.Address_Hex Keccak256 a, None)
          | _ => Panic
          end
      | abi.FixedBytesTy =>
          match reflect.elems val with
          | None => Panic
          | Some arrayVal =>
              match mapM reflect.Uint arrayVal with
              | None => Panic
              | Some us =>
                  let castVal := map (fun u => u mod 256) us in
                  Return ("0x" +:+ hex.EncodeToString castVal, None)
              end
          end
      | abi.BytesTy =>
          match val with
          | VBytes bs => Return ("0x" +:+ hex.EncodeToString bs, None)
          | _ => Panic
          end
      | abi.HashTy =>
          match val with
          | VHash h => Return (common.Hash_Hex h, None)
          | _ => Panic
          end
      | abi.FixedPointTy => Return ("", Some (UnhandledType argType))
      | abi.FunctionTy => Return ("", Some (UnhandledType argType))
      | _ => Return ("", Some (UnknownType argType))
      end
  end.

End Contract.

(** ** contractUnpack *)

(** One invocation of the binary decoder [abi.Unpack(v, name, data)]. *)
Record UnpackCall : Type :=
  mkUnpackCall { call_dest : list value; call_name : string; call_data : list Z }.

Section Unpack.

(** [reflect.New(t.Type).Elem().Interface()]: the zero value of the Go
    type that go-ethereum attaches to an ABI type. *)
Variable zeroValue : abi.Type_ -> value.

(** [reflect.New(t.Type.Elem()).Elem().Interface()]: the zero value of
    the element type; [None] when [Type.Elem()] panics because the Go type
    has no element type. *)
Variable zeroElemValue : abi.Type_ -> option value.

(** The external decoder [abi.Unpack] on a single destination and on a
    sequence of destinations: what the destinations hold afterwards, and
    the error. *)
Variable UnpackOne : abi.ABI -> value -> string -> list Z -> value * option error.
Variable UnpackMany :
  abi.ABI -> list value -> string -> list Z -> list value * option error.

(** The function returns [(result, err)]; the second component of the
    model lists the decoder invocations made on the way, in order. *)
Definition contractUnpack (a : abi.ABI) (name : string) (data : list Z)
  : outcome (option (list value) * option error) * list UnpackCall :=
  match abi.Methods a !! name with
  | None => (Return (None, Some (MethodDoesNotExist name)), [])
  | Some method =>
      match abi.Outputs method with
      | [] => (Return (Some [], None), [])
      | [out] =>
          let output := zeroValue (abi.Arg_Type out) in
          let '(output', err) := UnpackOne a output name data in
          (Return (Some [output'], err), [mkUnpackCall [output] name data])
      | outs =>
          match mapM (fun o => zeroElemValue (abi.Arg_Type o)) outs with
          | None => (Panic, [])
          | Some res =>
              let '(res', err) := UnpackMany a res name data in
              (Return (Some res', err), [mkUnpackCall res name data])
          end
      end
  end.

End Unpack.

(** ** Package conn: currentbasefee.go *)
Section CurrentBaseFee.

(** The chain client and the blocks it returns are opaque. *)
Variable Client : Type.
Variable Block : Type.

(** [string2eth.StringToWei]: a [*big.Int] and an error. *)
Variable StringToWei : string -> option Z * option error.

(** [misc.CalcBaseFee(&params.ChainConfig{LondonBlock: 0}, block.Header())];
    [None] when it panics, as it does on a header without a base fee. *)
Variable CalcBaseFee : Block -> option Z.

(** What the collaborators answer during one call: the two requests to
    the chain client and the configuration lookup. *)
Record World : Type := mkWorld {
  BlockNumber : Client -> Z + error;
  BlockByNumber : Client -> Z -> Block + error;
  GetString : string -> string
}.

Record Conn : Type := mkConn {
  client : option Client;
  baseFeePerGas : option Z
}.

Definition set_baseFeePerGas (c : Conn) (fee : option Z) : Conn :=
  {| client := client c; baseFeePerGas := fee |}.

(** The returned pair, or the panic, and the connection after the call. *)
Definition CurrentBaseFee (w : World) (c : Conn)
  : outcome (option Z * option error) * Conn :=
  match client c with
  | None =>
      match baseFeePerGas c with
      | Some fee => (Return (Some fee, None), c)
      | None =>
          let '(fee, err) := StringToWei (GetString w "base-fee-per-gas") in
          let c := set_baseFeePerGas c fee in
          match err with
          | Some e => (Return (None, Some e), c)
          | None => (Return (baseFeePerGas c, None), c)
          end
      end
  | Some cl =>
      match BlockNumber w cl with
      | inr err => (Return (None, Some err), c)
      | inl blockNum =>
          match BlockByNumber w cl (to_int 64 blockNum) with
          | inr err => (Return (None, Some err), c)
          | inl block =>
              match baseFeePerGas c with
              | Some fee => (Return (Some fee, None), c)
              | None =>
                  match CalcBaseFee block with
                  | Some baseFee => (Return (Some baseFee, None), c)
                  | None => (Panic, c)
                  end
              end
          end
      end
  end.

(** A sequence of calls on one connection, each in its own world: the
    outcomes in order, and the connection at the end. A panic ends the
    sequence. *)
Fixpoint CurrentBaseFee_calls (ws : list World) (c : Conn)
  : list (outcome (option Z * option error)) * Conn :=
  match ws with
  | [] => ([], c)
  | w :: ws' =>
      let '(r, c') := CurrentBaseFee w c in
      match r with
      | Panic => ([Panic], c')
      | Return _ =>
          let '(rs, c'') := CurrentBaseFee_calls ws' c' in
          (r :: rs, c'')
      end
  end.

End CurrentBaseFee.

(** ** Vocabulary of the statements *)

(** The widths that have a fixed-width Go integer type. *)
Definition narrow_width (w : Z) : bool :=
  (w =? 8) || (w =? 16) || (w =? 32) || (w =? 64).

(** The values a descriptor of a scalar kind stands for: a fixed-width
    integer of the descriptor's width, a big integer in the range of any
    other width, a boolean, a string, 20 bytes, any bytes, 32 bytes. *)
Definition representable (t : abi.Type_) (v : value) : bool :=
  match abi.T t, v with
  | abi.IntTy, VInt w z =>
      (w =? abi.Size t) && narrow_width w
      && (- 2 ^ (w - 1) <=? z) && (z <? 2 ^ (w - 1))
  | abi.IntTy, VBigInt z =>
      negb (narrow_width (abi.Size t))
      && (- 2 ^ (abi.Size t - 1) <=? z) && (z <? 2 ^ (abi.Size t - 1))
  | abi.UintTy, VUint w z =>
      (w =? abi.Size t) && narrow_width w && (0 <=? z) && (z <? 2 ^ w)
  | abi.UintTy, VBigInt z =>
      negb (narrow_width (abi.Size t)) && (0 <=? z) && (z <? 2 ^ abi.Size t)
  | abi.BoolTy, VBool _ => true
  | abi.StringTy, VString _ => true
  | abi.AddressTy, VAddress a =>
      (length a =? common.AddressLength)%nat && forallb is_byteb a
  | abi.BytesTy, VBytes bs => forallb is_byteb bs
  | abi.HashTy, VHash h =>
      (length h =? common.HashLength)%nat && forallb is_byteb h
  | _, _ => false
  end.

(** The values that the parser's own choices leave alone: a string that
    the trimming does not shorten, and a fixed-width signed integer that is
    not negative (the narrowing goes through the magnitude). *)
Definition survives_parse (v : value) : bool :=
  match v with
  | VString s => String.eqb (strings.Trim s " ") s
  | VInt _ z => 0 <=? z
  | _ => true
  end.

(** No byte of the string is a space. *)
Fixpoint no_space (s : string) : bool :=
  match s with
  | EmptyString => true
  | String c rest => negb (Ascii.eqb c " ") && no_space rest
  end.

(** A connection with a client whose requests fail, and a filled cache. *)
Definition offline_world : World unit Z :=
  {| BlockNumber := fun _ => inr (External "connection refused");
     BlockByNumber := fun _ _ => inr (External "connection refused");
     GetString := fun _ => "1 gwei" |}.

Definition online_world : World unit Z :=
  {| BlockNumber := fun _ => inl 15000000;
     BlockByNumber := fun _ n => inl n;
     GetString := fun _ => "1 gwei" |}.

Definition cached_conn : Conn unit :=
  {| client := Some tt; baseFeePerGas := Some 7 |}.

(** ** Vocabulary of the further properties *)

(** [n] spaces. *)
Fixpoint spaces (n : nat) : string :=
  match n with
  | O => EmptyString
  | S n' => String " " (spaces n')
  end.

Definition is_digit (c : ascii) : bool :=
  (code "0" <=? code c) && (code c <=? code "9").

Fixpoint all_digits (s : string) : bool :=
  match s with
  | EmptyString => true
  | String c rest => is_digit c && all_digits rest
  end.

(** Base-10 integer text: an optional sign, then one digit or more. *)
Definition is_decimal (s : string) : bool :=
  match s with
  | EmptyString => false
  | String c rest =>
      if Ascii.eqb c "-" || Ascii.eqb c "+"
      then match rest with EmptyString => false | _ => all_digits rest end
      else all_digits s
  end.

Definition is_hex_digit (c : ascii) : bool :=
  ((code "0" <=? code c) && (code c <=? code "9"))
  || ((code "a" <=? code c) && (code c <=? code "f"))
  || ((code "A" <=? code c) && (code c <=? code "F")).

Fixpoint all_hex (s : string) : bool :=
  match s with
  | EmptyString => true
  | String c rest => is_hex_digit c && all_hex rest
  end.

(** Hex text of whole bytes: hex digits only, an even number of them. *)
Definition is_hex_text (s : string) : bool :=
  all_hex s && Nat.even (String.length s).

(** The text the hex cases decode: the input trimmed, without a leading
    "0x". *)
Definition hex_body (val : string) : string :=
  strings.TrimPrefix (strings.Trim val " ") "0x".

(** The descriptor at the bottom of a slice or array descriptor: the one
    reached by following [Elem] while the kind is Slice or Array. *)
Fixpoint innermost (t : abi.Type_) : abi.Type_ :=
  match t with
  | abi.mkType (Some e) _ abi.SliceTy => innermost e
  | abi.mkType (Some e) _ abi.ArrayTy => innermost e
  | _ => t
  end.

(** A base-fee computation over blocks that are their own number: it
    panics on a head before block 12965000, which has no base fee. *)
Definition london_fee (block : Z) : option Z :=
  if block <? 12965000 then None else Some (block + 1).

Definition old_head_world : World unit Z :=
  {| BlockNumber := fun _ => inl 100;
     BlockByNumber := fun _ n => inl n;
     GetString := fun _ => "1 gwei" |}.

(** A connection without a client and with an empty cache, a world whose
    configured base fee is not a number, and a wei parser that knows one
    text. *)
Definition fresh_conn : Conn unit :=
  {| client := None; baseFeePerGas := None |}.

Definition bad_config_world : World unit Z :=
  {| BlockNumber := fun _ => inl 15000000;
     BlockByNumber := fun _ n => inl n;
     GetString := fun _ => "one" |}.

Definition one_gwei_parser (s : string) : option Z * option error :=
  if String.eqb s "1 gwei" then (Some 1000000000, None)
  else (None, Some (External "failed to parse")).

(** The string is empty or starts with a byte other than a space. *)
Definition head_kept (s : string) : Prop :=
  match s with
  | EmptyString => True
  | String c _ => strings.IndexByte " " c = false
  end.

(** ** Package cmd: the contract flags

    [parseContract] and [contractParseAbi] read and write package
    variables, open files and call into other packages. The package
    variables are a record that is passed along; the file system, the ABI
    reader, the combined-JSON reader and [cli.ErrCheck] are parameters. *)

(** [strings.Split(s, sep)] for a separator of one byte, which is what the
    code passes: the pieces of [s] between the separators, at least one. *)
Fixpoint strings_Split (s : string) (sep : ascii) : list string :=
  match s with
  | EmptyString => [EmptyString]
  | String c rest =>
      if Ascii.eqb c sep then EmptyString :: strings_Split rest sep
      else
        match strings_Split rest sep with
        | piece :: pieces => String c piece :: pieces
        | [] => [String c EmptyString]
        end
  end.

(** ** Package path/filepath, with "/" as the separator *)
Module filepath.

Fixpoint hasSeparator (s : string) : bool :=
  match s with
  | EmptyString => false
  | String c rest => Ascii.eqb c "/" || hasSeparator rest
  end.

(** What follows the last separator; the whole string when there is
    none. *)
Fixpoint lastElement (s : string) : string :=
  match s with
  | EmptyString => EmptyString
  | String c rest =>
      if hasSeparator rest then lastElement rest
      else if Ascii.eqb c "/" then rest else s
  end.

(** [filepath.Base]: "." for the empty path; otherwise the path without
    its trailing separators, cut after the last separator left, and "/"
    when nothing remains. *)
Definition Base (path : string) : string :=
  match path with
  | EmptyString => "."
  | _ =>
      match lastElement (strings.TrimRight path "/") with
      | EmptyString => "/"
      | last => last
      end
  end.

End filepath.

(** [util.Contract]: the fields that contract.go assigns. *)
Module util.

Record Contract : Type :=
  mkContract { Name : string; Binary : list Z; Abi : abi.ABI }.

End util.

(** The package variables of cmd that the two functions use. *)
Record Vars : Type := mkVars {
  contractAbi : string;
  contractJSON : string;
  contractName : string;
  err : option error
}.

Definition set_contractName (vars : Vars) (name : string) : Vars :=
  {| contractAbi := contractAbi vars; contractJSON := contractJSON vars;
     contractName := name; err := err vars |}.

Definition set_err (vars : Vars) (e : option error) : Vars :=
  {| contractAbi := contractAbi vars; contractJSON := contractJSON vars;
     contractName := contractName vars; err := e |}.

Section ParseContract.

(** [os.Open] on a path. *)
Variable File : Type.
Variable Open : string -> File + error.

(** [abi.JSON] on a reader over a text or over an open file. *)
Variable JSON : string + File -> abi.ABI * option error.

(** [util.ParseCombinedJSON(path, name)]. *)
Variable ParseCombinedJSON : string -> string -> option util.Contract * option error.

(** [cli.ErrCheck(err, quiet, msg)]: [true] when the call returns, [false]
    when it ends the process. *)
Variable ErrCheck : option error -> string -> bool.

(** The result [output] is the zero ABI when the file cannot be opened.
    The test for a literal ABI looks at the package variable, not at
    [input]. *)
Definition contractParseAbi (vars : Vars) (input : string) : abi.ABI * option error :=
  if strings.HasPrefix (contractAbi vars) "[" then JSON (inl input)
  else
    match Open input with
    | inr e => (abi.mkABI ∅, Some e)
    | inl file => JSON (inr file)
    end.

(** The returned pointer, [None] when the process ended in [ErrCheck],
    and the package variables afterwards. *)
Definition parseContract (vars : Vars) (binStr : string)
  : option (option util.Contract) * Vars :=
  if negb (String.eqb (contractJSON vars) EmptyString) then
    let vars :=
      if String.eqb (contractName vars) EmptyString
      then set_contractName vars
             (hd EmptyString (strings_Split (filepath.Base (contractJSON vars)) "."))
      else vars in
    let '(contract, e) := ParseCombinedJSON (contractJSON vars) (contractName vars) in
    let vars := set_err vars e in
    if ErrCheck e "Failed to parse JSON" then (Some contract, vars) else (None, vars)
  else
    let contract := util.mkContract EmptyString [] (abi.mkABI ∅) in
    let contract :=
      if negb (String.eqb (contractName vars) EmptyString)
      then util.mkContract (contractName vars) (util.Binary contract) (util.Abi contract)
      else contract in
    let '(bin, e) := hex.DecodeString (strings.TrimPrefix binStr "0x") in
    let vars := set_err vars (option_map HexError e) in
    if ErrCheck (err vars) "Failed to decode data" then
      let contract := util.mkContract EmptyString bin (abi.mkABI ∅) in
      if negb (String.eqb (contractAbi vars) EmptyString) then
        let '(abi, e') := contractParseAbi vars (contractAbi vars) in
        if ErrCheck e' ("Failed to parse ABI " +:+ contractAbi vars)
        then (Some (Some (util.mkContract (util.Name contract) (util.Binary contract) abi)),
              vars)
        else (None, vars)
      else (Some (Some contract), vars)
    else (None, vars).

End ParseContract.

(** Collaborators to run the flag functions with: an [ErrCheck] that ends
    the process on an error, a file system without files, an ABI reader
    that accepts everything, and a combined-JSON reader that returns an
    empty contract of the requested name. *)
Definition strict_ErrCheck (e : option error) (msg : string) : bool :=
  match e with
  | Some _ => false
  | None => true
  end.

Definition no_files (path : string) : unit + error :=
  inr (External "no such file or directory").

Definition any_JSON (reader : string + unit) : abi.ABI * option error :=
  (abi.mkABI ∅, None).

Definition named_contract (path name : string) : option util.Contract * option error :=
  (Some (util.mkContract name [] (abi.mkABI ∅)), None).

(** The leading part of a hex text that decodes: its longest prefix of
    pairs of hex digits. *)
Fixpoint valid_pairs (s : string) : string :=
  match s with
  | String p (String q rest) =>
      if is_hex_digit p && is_hex_digit q
      then String p (String q (valid_pairs rest))
      else EmptyString
  | _ => EmptyString
  end.

(** The first byte of a text that is not a hex digit. *)
Fixpoint first_non_hex (s : string) : option ascii :=
  match s with
  | EmptyString => None
  | String c rest => if is_hex_digit c then first_non_hex rest else Some c
  end.

(** The outcomes of a sequence of calls up to the first panic, which is
    the last one. *)
Fixpoint until_panic {A : Type} (rs : list (outcome A)) : list (outcome A) :=
  match rs with
  | [] => []
  | Panic :: _ => [Panic]
  | r :: rest => r :: until_panic rest
  end.

(** * Properties *)

(** ** Tactics *)

Ltac btrue :=
  repeat match goal with
  | H : _ && _ = true |- _ => apply andb_true_iff in H; destruct H
  | H : _ || _ = true |- _ => apply orb_true_iff in H
  | H : (_ =? _) = true |- _ => apply Z.eqb_eq in H
  | H : (_ <=? _) = true |- _ => apply Z.leb_le in H
  | H : (_ <? _) = true |- _ => apply Z.ltb_lt in H
  | H : (_ =? _)%nat = true |- _ => apply Nat.eqb_eq in H
  end.

(** ** Bool (C7) *)

(** C7: for a Bool descriptor the parser returns [true] exactly when the
    trimmed input is "true", "True" or "1", returns [false] for every other
    input, and never returns an error. *)
Theorem C7_bool_parse (argType : abi.Type_) (val : string) :
  abi.T argType = abi.BoolTy ->
  exists b : bool,
    contractStringToValue argType val = Return (Some (VBool b), None)
    /\ (b = true <->
        strings.Trim val " " = "true" \/ strings.Trim val " " = "True"
        \/ strings.Trim val " " = "1").
Proof.
  intros HT. unfold contractStringToValue. rewrite HT.
  destruct (String.eqb (strings.Trim val " ") "true") eqn:E1.
  { exists true. split; [reflexivity|]. apply String.eqb_eq in E1. tauto. }
  destruct (String.eqb (strings.Trim val " ") "True") eqn:E2.
  { exists true. split; [reflexivity|]. apply String.eqb_eq in E2. tauto. }
  destruct (String.eqb (strings.Trim val " ") "1") eqn:E3.
  { exists true. split; [reflexivity|]. apply String.eqb_eq in E3. tauto. }
  exists false. split; [reflexivity|].
  apply String.eqb_neq in E1, E2, E3.
  split; [discriminate | intros [?|[?|?]]; contradiction].
Qed.

Lemma C7_bool_parse_witness :
  exists b : bool,
    contractStringToValue (abi.mkType None 0 abi.BoolTy) " yes" = Return (Some (VBool b), None)
    /\ (b = true <->
        strings.Trim " yes" " " = "true" \/ strings.Trim " yes" " " = "True"
        \/ strings.Trim " yes" " " = "1").
Proof. apply C7_bool_parse. reflexivity. Defined.

(** ** Zero outputs (C8) *)

(** C8: when the method declares no outputs, contractUnpack returns the
    empty sequence and a nil error whatever the data, and the decoder is not
    invoked: the list of invocations is empty. *)
Theorem C8_unpack_zero_outputs
    (zeroValue : abi.Type_ -> value) (zeroElemValue : abi.Type_ -> option value)
    (UnpackOne : abi.ABI -> value -> string -> list Z -> value * option error)
    (UnpackMany : abi.ABI -> list value -> string -> list Z -> list value * option error)
    (a : abi.ABI) (name : string) (data : list Z) (method : abi.Method) :
  abi.Methods a !! name = Some method ->
  abi.Outputs method = [] ->
  contractUnpack zeroValue zeroElemValue UnpackOne UnpackMany a name data
  = (Return (Some [], None), []).
Proof.
  intros Hm Ho. unfold contractUnpack. rewrite Hm, Ho. reflexivity.
Qed.

Lemma C8_unpack_zero_outputs_witness :
  contractUnpack (fun _ => VBool false) (fun _ => None)
    (fun _ v _ _ => (v, Some (External "decode")))
    (fun _ vs _ _ => (vs, Some (External "decode")))
    (abi.mkABI {[ "ping" := abi.mkMethod "ping" [] ]}) "ping" [1; 2; 3]
  = (Return (Some [], None), []).
Proof.
  apply (C8_unpack_zero_outputs _ _ _ _ _ _ _ (abi.mkMethod "ping" []));
    reflexivity.
Defined.

(** ** FixedBytes (C1, C6, C9) *)

Lemma make_bytes_within (n : Z) :
  0 <= n <= maxAlloc -> make_bytes n = Some (replicate (Z.to_nat n) 0).
Proof.
  intros Hn. unfold make_bytes.
  replace (n <? 0) with false by (symmetry; apply Z.ltb_ge; lia).
  replace (maxAlloc <? n) with false by (symmetry; apply Z.ltb_ge; lia).
  reflexivity.
Qed.

Lemma make_bytes_nonneg (n : Z) :
  0 <= n <= 32 -> make_bytes n = Some (replicate (Z.to_nat n) 0).
Proof.
  intros Hn. apply make_bytes_within. unfold maxAlloc. lia.
Qed.

Lemma copy_into_right_aligned (size : Z) (src : list Z) :
  Z.of_nat (length src) <= size ->
  copy_into (replicate (Z.to_nat size) 0) (size - Z.of_nat (length src)) size src
  = Some (replicate (Z.to_nat size - length src) 0 ++ src)%list.
Proof.
  intros Hlen. unfold copy_into. rewrite length_replicate.
  replace (0 <=? size - Z.of_nat (length src)) with true by (symmetry; apply Z.leb_le; lia).
  replace (size - Z.of_nat (length src) <=? size) with true by (symmetry; apply Z.leb_le; lia).
  replace (size <=? Z.of_nat (Z.to_nat size)) with true by (symmetry; apply Z.leb_le; lia).
  simpl. f_equal.
  replace (Z.to_nat (size - (size - Z.of_nat (length src)))) with (length src) by lia.
  rewrite Nat.min_id, firstn_all.
  rewrite take_replicate, drop_replicate.
  replace (Z.to_nat size - (Z.to_nat (size - Z.of_nat (length src)) + length src))%nat
    with 0%nat by lia.
  replace (Z.to_nat (size - Z.of_nat (length src)) `min` Z.to_nat size)%nat
    with (Z.to_nat size - length src)%nat by lia.
  simpl. rewrite app_nil_r. reflexivity.
Qed.

Lemma copy_into_negative (slice : list Z) (lo hi : Z) (src : list Z) :
  lo < 0 -> copy_into slice lo hi src = None.
Proof.
  intros Hlo. unfold copy_into.
  replace (0 <=? lo) with false by (symmetry; apply Z.leb_gt; lia).
  reflexivity.
Qed.

(** What the FixedBytes case does when the hex text does not decode: the
    buffer stays as [make] left it, and the returned error is nil. *)
Lemma fixedbytes_bad_hex (argType : abi.Type_) (val : string)
    (decoded : list Z) (e : hex.error) :
  abi.T argType = abi.FixedBytesTy ->
  1 <= abi.Size argType <= 32 ->
  hex.DecodeString (strings.TrimPrefix (strings.Trim val " ") "0x") = (decoded, Some e) ->
  contractStringToValue argType val
  = Return (Some (VByteArray (replicate (Z.to_nat (abi.Size argType)) 0)), None).
Proof.
  intros HT Hs Hd. unfold contractStringToValue. rewrite HT.
  rewrite make_bytes_nonneg by lia. rewrite Hd.
  replace (1 <=? abi.Size argType) with true by (symmetry; apply Z.leb_le; lia).
  replace (abi.Size argType <=? 32) with true by (symmetry; apply Z.leb_le; lia).
  reflexivity.
Qed.

(** C1: at size 4 and the text "0xzz", whose digits are not hex, the parser
    returns four zero bytes and a nil error; the decoder's error only
    reaches the package variable. The claim asks for an error instead. *)
Theorem C1_fixedbytes_bad_hex_returns_zeros :
  snd (hex.DecodeString (strings.TrimPrefix "0xzz" "0x")) = Some (hex.InvalidByteError "z")
  /\ contractStringToValue (abi.mkType None 4 abi.FixedBytesTy) "0xzz"
     = Return (Some (VByteArray [0; 0; 0; 0]), None)
  /\ contractStringToValue_err (abi.mkType None 4 abi.FixedBytesTy) "0xzz" None
     = Some (HexError (hex.InvalidByteError "z")).
Proof. repeat split. Qed.

(** C6: for a size in [1, 32] and hex text that decodes to at most that
    many bytes, the parser returns the decoded bytes right-aligned in a
    buffer of the size, zero bytes in front; "0xab" at size 4 gives
    00 00 00 ab. *)
Theorem C6_fixedbytes_right_aligned (argType : abi.Type_) (val : string)
    (decoded : list Z) :
  abi.T argType = abi.FixedBytesTy ->
  1 <= abi.Size argType <= 32 ->
  hex.DecodeString (strings.TrimPrefix (strings.Trim val " ") "0x") = (decoded, None) ->
  Z.of_nat (length decoded) <= abi.Size argType ->
  contractStringToValue argType val
  = Return (Some (VByteArray
      (replicate (Z.to_nat (abi.Size argType) - length decoded) 0 ++ decoded)%list), None)
  /\ contractStringToValue (abi.mkType None 4 abi.FixedBytesTy) "0xab"
     = Return (Some (VByteArray [0; 0; 0; 171]), None).
Proof.
  intros HT Hs Hd Hlen. split; [|reflexivity].
  unfold contractStringToValue. rewrite HT.
  rewrite make_bytes_nonneg by lia. rewrite Hd.
  rewrite copy_into_right_aligned by lia.
  replace (1 <=? abi.Size argType) with true by (symmetry; apply Z.leb_le; lia).
  replace (abi.Size argType <=? 32) with true by (symmetry; apply Z.leb_le; lia).
  reflexivity.
Qed.

Lemma C6_fixedbytes_right_aligned_witness :
  contractStringToValue (abi.mkType None 3 abi.FixedBytesTy) " 0x0aFF "
  = Return (Some (VByteArray
      (replicate (Z.to_nat 3 - length [10; 255]) 0 ++ [10; 255])%list), None)
  /\ contractStringToValue (abi.mkType None 4 abi.FixedBytesTy) "0xab"
     = Return (Some (VByteArray [0; 0; 0; 171]), None).
Proof.
  apply (C6_fixedbytes_right_aligned (abi.mkType None 3 abi.FixedBytesTy) " 0x0aFF " [10; 255]);
    [reflexivity | simpl; lia | reflexivity | simpl; lia].
Defined.

(** C9: for a size in [1, 32] and hex text that decodes to more bytes than
    the size, the parser neither returns a value nor an error: the lower
    bound of the slice expression is negative and the call panics. *)
Theorem C9_fixedbytes_too_long_panics (argType : abi.Type_) (val : string)
    (decoded : list Z) :
  abi.T argType = abi.FixedBytesTy ->
  1 <= abi.Size argType <= 32 ->
  hex.DecodeString (strings.TrimPrefix (strings.Trim val " ") "0x") = (decoded, None) ->
  abi.Size argType < Z.of_nat (length decoded) ->
  abi.Size argType - Z.of_nat (length decoded) < 0
  /\ contractStringToValue argType val = Panic.
Proof.
  intros HT Hs Hd Hlen. split; [lia|].
  unfold contractStringToValue. rewrite HT.
  rewrite make_bytes_nonneg by lia. rewrite Hd.
  rewrite copy_into_negative by lia. reflexivity.
Qed.

Lemma C9_fixedbytes_too_long_panics_witness :
  abi.Size (abi.mkType None 2 abi.FixedBytesTy) - Z.of_nat (length [171; 205; 239]) < 0
  /\ contractStringToValue (abi.mkType None 2 abi.FixedBytesTy) "0xabcdef" = Panic.
Proof.
  apply (C9_fixedbytes_too_long_panics (abi.mkType None 2 abi.FixedBytesTy) "0xabcdef" [171; 205; 239]);
    [reflexivity | simpl; lia | reflexivity | simpl; lia].
Defined.

(** ** Integers (C3) *)

Lemma narrow_width_cases (w : Z) :
  narrow_width w = true -> w = 8 \/ w = 16 \/ w = 32 \/ w = 64.
Proof. unfold narrow_width. intros H. btrue. lia. Qed.

Lemma to_uint_low_bits (w u : Z) : 0 <= w -> to_uint w u = Z.land u (Z.ones w).
Proof. intros Hw. unfold to_uint. rewrite Z.land_ones by lia. reflexivity. Qed.

Lemma to_int_range (w u : Z) :
  0 < w -> - 2 ^ (w - 1) <= to_int w u < 2 ^ (w - 1).
Proof.
  intros Hw. unfold to_int.
  assert (H2 : 2 ^ w = 2 * 2 ^ (w - 1)).
  { replace w with (Z.succ (w - 1)) at 1 by lia. apply Z.pow_succ_r. lia. }
  assert (Hp : 0 < 2 ^ (w - 1)) by (apply Z.pow_pos_nonneg; lia).
  pose proof (Z.mod_pos_bound (u + 2 ^ (w - 1)) (2 ^ w) ltac:(lia)). lia.
Qed.

Lemma to_int_low_bits (w u : Z) :
  0 < w -> to_int w u mod 2 ^ w = Z.land u (Z.ones w).
Proof.
  intros Hw. unfold to_int. rewrite Z.land_ones by lia.
  rewrite Zminus_mod_idemp_l.
  f_equal. lia.
Qed.

(** C3: at the widths 8, 16, 32 and 64 a valid base-10 text parses to the
    low width bits of the integer's [Uint64] (read as two's complement for
    a signed descriptor), never to an error; "300" at an unsigned width of
    8 parses to 44; at any other width, in particular above 64, the parsed
    integer is returned as it is. *)
Theorem C3_integer_narrowing (argType : abi.Type_) (val : string) (z : Z) :
  abi.T argType = abi.IntTy \/ abi.T argType = abi.UintTy ->
  big.SetString (strings.Trim val " ") 10 = Some z ->
  (narrow_width (abi.Size argType) = true ->
     (abi.T argType = abi.UintTy ->
        contractStringToValue argType val
        = Return (Some (VUint (abi.Size argType)
                   (Z.land (big.Uint64 z) (Z.ones (abi.Size argType)))), None))
     /\ (abi.T argType = abi.IntTy ->
        exists s : Z,
          contractStringToValue argType val
          = Return (Some (VInt (abi.Size argType) s), None)
          /\ - 2 ^ (abi.Size argType - 1) <= s < 2 ^ (abi.Size argType - 1)
          /\ s mod 2 ^ abi.Size argType
             = Z.land (big.Uint64 z) (Z.ones (abi.Size argType))))
  /\ (64 < abi.Size argType ->
      contractStringToValue argType val = Return (Some (VBigInt z), None))
  /\ contractStringToValue (abi.mkType None 8 abi.UintTy) "300"
     = Return (Some (VUint 8 44), None).
Proof.
  intros HT Hz. split; [|split; [|reflexivity]].
  - intros Hw. apply narrow_width_cases in Hw. split.
    + intros HU. unfold contractStringToValue. rewrite HU, Hz.
      destruct Hw as [W|[W|[W|W]]]; rewrite W; simpl (_ =? _);
        cbv iota; rewrite to_uint_low_bits by lia; reflexivity.
    + intros HI. exists (to_int (abi.Size argType) (big.Uint64 z)).
      split; [|split].
      * unfold contractStringToValue. rewrite HI, Hz.
        destruct Hw as [W|[W|[W|W]]]; rewrite W; reflexivity.
      * apply to_int_range. lia.
      * apply to_int_low_bits. lia.
  - intros Hw. unfold contractStringToValue.
    assert (E8 : (abi.Size argType =? 8) = false) by (apply Z.eqb_neq; lia).
    assert (E16 : (abi.Size argType =? 16) = false) by (apply Z.eqb_neq; lia).
    assert (E32 : (abi.Size argType =? 32) = false) by (apply Z.eqb_neq; lia).
    assert (E64 : (abi.Size argType =? 64) = false) by (apply Z.eqb_neq; lia).
    destruct HT as [HT|HT]; rewrite HT, Hz, E8, E16, E32, E64; reflexivity.
Qed.

Lemma C3_integer_narrowing_witness :
  (narrow_width (abi.Size (abi.mkType None 16 abi.IntTy)) = true ->
     (abi.T (abi.mkType None 16 abi.IntTy) = abi.UintTy ->
        contractStringToValue (abi.mkType None 16 abi.IntTy) " 70000"
        = Return (Some (VUint (abi.Size (abi.mkType None 16 abi.IntTy))
                   (Z.land (big.Uint64 70000) (Z.ones (abi.Size (abi.mkType None 16 abi.IntTy))))), None))
     /\ (abi.T (abi.mkType None 16 abi.IntTy) = abi.IntTy ->
        exists s : Z,
          contractStringToValue (abi.mkType None 16 abi.IntTy) " 70000"
          = Return (Some (VInt (abi.Size (abi.mkType None 16 abi.IntTy)) s), None)
          /\ - 2 ^ (abi.Size (abi.mkType None 16 abi.IntTy) - 1) <= s < 2 ^ (abi.Size (abi.mkType None 16 abi.IntTy) - 1)
          /\ s mod 2 ^ abi.Size (abi.mkType None 16 abi.IntTy)
             = Z.land (big.Uint64 70000) (Z.ones (abi.Size (abi.mkType None 16 abi.IntTy)))))
  /\ (64 < abi.Size (abi.mkType None 16 abi.IntTy) ->
      contractStringToValue (abi.mkType None 16 abi.IntTy) " 70000" = Return (Some (VBigInt 70000), None))
  /\ contractStringToValue (abi.mkType None 8 abi.UintTy) "300"
     = Return (Some (VUint 8 44), None).
Proof.
  apply (C3_integer_narrowing (abi.mkType None 16 abi.IntTy) " 70000" 70000);
    [left; reflexivity | reflexivity].
Defined.

(** ** Slices and arrays (C5) *)

Lemma render_elems_all (f : value -> outcome (string * option error))
    (vs : list value) (strs : list string) :
  Forall2 (fun v s => f v = Return (s, None)) vs strs ->
  render_elems (Some f) vs = Return (inl strs).
Proof.
  induction 1 as [|v s vs strs Hv _ IH]; simpl.
  - reflexivity.
  - rewrite Hv, IH. reflexivity.
Qed.

(** C5: for a Slice or Array descriptor the parser fails with an
    "Unhandled type" error on every input, while the renderer, given a
    container whose elements render, returns their renderings joined with
    "," between "[" and "]"; a container without elements gives "[]", and
    the slice 1, 2 of unsigned integers gives "[1,2]". *)
Theorem C5_container_asymmetry (Keccak256 : list Z -> list Z)
    (argType : abi.Type_) (val : string) :
  abi.T argType = abi.SliceTy \/ abi.T argType = abi.ArrayTy ->
  (exists e : error,
     contractStringToValue argType val = Return (None, Some e)
     /\ is_unhandled e = true)
  /\ (forall (elem : abi.Type_) (container : value) (vs : list value)
        (strs : list string),
        abi.Elem argType = Some elem ->
        reflect.elems container = Some vs ->
        Forall2 (fun v s => contractValueToString Keccak256 elem v = Return (s, None))
          vs strs ->
        contractValueToString Keccak256 argType container
        = Return ("[" +:+ strings.Join strs "," +:+ "]", None))
  /\ (forall container : value,
        reflect.elems container = Some [] ->
        contractValueToString Keccak256 argType container = Return ("[]", None))
  /\ contractValueToString Keccak256
       (abi.mkType (Some (abi.mkType None 256 abi.UintTy)) 0 abi.SliceTy)
       (VSlice [VBigInt 1; VBigInt 2])
     = Return ("[1,2]", None).
Proof.
  intros HT. split; [|split; [|split; [|reflexivity]]].
  - unfold contractStringToValue.
    destruct HT as [HT|HT]; rewrite HT; eexists; split; reflexivity.
  - intros elem container vs strs He Hvs Hall.
    destruct argType as [el sz t]. simpl in HT, He. subst el.
    destruct HT as [HT|HT]; subst t; cbn [contractValueToString];
      rewrite Hvs, (render_elems_all _ _ _ Hall); reflexivity.
  - intros container Hvs. destruct argType as [el sz t]. simpl in HT.
    destruct HT as [HT|HT]; subst t; cbn [contractValueToString];
      rewrite Hvs; reflexivity.
Qed.

Lemma C5_container_asymmetry_witness :
  (exists e : error,
     contractStringToValue (abi.mkType (Some (abi.mkType None 0 abi.BoolTy)) 2 abi.ArrayTy) "[true,false]"
     = Return (None, Some e)
     /\ is_unhandled e = true)
  /\ (forall (elem : abi.Type_) (container : value) (vs : list value)
        (strs : list string),
        abi.Elem (abi.mkType (Some (abi.mkType None 0 abi.BoolTy)) 2 abi.ArrayTy) = Some elem ->
        reflect.elems container = Some vs ->
        Forall2 (fun v s => contractValueToString (fun _ => []) elem v = Return (s, None))
          vs strs ->
        contractValueToString (fun _ => [])
          (abi.mkType (Some (abi.mkType None 0 abi.BoolTy)) 2 abi.ArrayTy) container
        = Return ("[" +:+ strings.Join strs "," +:+ "]", None))
  /\ (forall container : value,
        reflect.elems container = Some [] ->
        contractValueToString (fun _ => [])
          (abi.mkType (Some (abi.mkType None 0 abi.BoolTy)) 2 abi.ArrayTy) container
        = Return ("[]", None))
  /\ contractValueToString (fun _ => [])
       (abi.mkType (Some (abi.mkType None 256 abi.UintTy)) 0 abi.SliceTy)
       (VSlice [VBigInt 1; VBigInt 2])
     = Return ("[1,2]", None).
Proof.
  apply (C5_container_asymmetry (fun _ => [])
           (abi.mkType (Some (abi.mkType None 0 abi.BoolTy)) 2 abi.ArrayTy) "[true,false]").
  right. reflexivity.
Defined.

(** An array of two booleans renders through the same loop. *)
Example render_bool_array :
  contractValueToString (fun _ => [])
    (abi.mkType (Some (abi.mkType None 0 abi.BoolTy)) 2 abi.ArrayTy)
    (VSlice [VBool true; VBool false])
  = Return ("[true,false]", None).
Proof. reflexivity. Qed.

(** ** Hex text *)

(** Checking a decidable property of a small number by running it on all
    of them. *)
Lemma forallb_below (P : Z -> bool) (n : nat) :
  forallb P (map Z.of_nat (seq 0 n)) = true ->
  forall z : Z, 0 <= z < Z.of_nat n -> P z = true.
Proof.
  intros Hall z Hz. rewrite forallb_forall in Hall. apply Hall.
  apply in_map_iff. exists (Z.to_nat z). split; [lia|].
  apply in_seq. lia.
Qed.

Lemma fromHexChar_range (c : ascii) (a : Z) :
  hex.fromHexChar c = Some a -> 0 <= a < 16.
Proof.
  unfold hex.fromHexChar.
  change (code "0") with 48. change (code "9") with 57.
  change (code "a") with 97. change (code "f") with 102.
  change (code "A") with 65. change (code "F") with 70.
  repeat match goal with
  | |- context [if ?b then _ else _] => destruct b eqn:?
  end; intros [= <-]; btrue; lia.
Qed.

Lemma nibbles_byte (a b : Z) :
  0 <= a < 16 -> 0 <= b < 16 -> is_byte (Z.lor (Z.shiftl a 4) b).
Proof.
  intros Ha Hb.
  pose (P := fun a => forallb (fun b => is_byteb (Z.lor (Z.shiftl a 4) b))
                        (map Z.of_nat (seq 0 16))).
  assert (H : P a = true).
  { apply (forallb_below P 16); [vm_compute; reflexivity | lia]. }
  unfold P in H.
  apply (forallb_below _ 16) with (z := b) in H; [|lia].
  unfold is_byteb in H. unfold is_byte. btrue. lia.
Qed.

(** Reasoning on a string two bytes at a time. *)
Lemma string_pair_ind (P : string -> Prop) :
  P EmptyString ->
  (forall c, P (String c EmptyString)) ->
  (forall c d s, P s -> P (String c (String d s))) ->
  forall s, P s.
Proof.
  intros H0 H1 H2 s.
  assert (H : P s /\ forall c, P (String c s)).
  { induction s as [|d s [IH1 IH2]]; split; auto. }
  apply H.
Qed.

Lemma DecodeString_bytes (s : string) : Forall is_byte (fst (hex.DecodeString s)).
Proof.
  induction s as [|c|c d s IH] using string_pair_ind.
  - constructor.
  - simpl. destruct (hex.fromHexChar c); constructor.
  - simpl. destruct (hex.fromHexChar c) as [a|] eqn:Ea; [|constructor].
    destruct (hex.fromHexChar d) as [b|] eqn:Eb; [|constructor].
    destruct (hex.DecodeString s) as [ds e]. simpl in *.
    constructor; [|exact IH].
    apply nibbles_byte; eapply fromHexChar_range; eassumption.
Qed.

Lemma DecodeString_length (s : string) (bs : list Z) :
  hex.DecodeString s = (bs, None) -> String.length s = (2 * length bs)%nat.
Proof.
  revert bs. induction s as [|c|c d s IH] using string_pair_ind; intros bs.
  - intros [= <-]. reflexivity.
  - simpl. destruct (hex.fromHexChar c); discriminate.
  - simpl. destruct (hex.fromHexChar c) as [a|]; [|discriminate].
    destruct (hex.fromHexChar d) as [b|]; [|discriminate].
    destruct (hex.DecodeString s) as [ds e].
    intros [= <- ->]. simpl. rewrite (IH ds eq_refl). lia.
Qed.

(** ** Addresses and hashes *)

Lemma SetBytes_length (n : nat) (b : list Z) : length (common.SetBytes n b) = n.
Proof.
  unfold common.SetBytes.
  destruct (n <? length b)%nat eqn:E.
  - apply Nat.ltb_lt in E.
    rewrite length_app, length_replicate, length_drop. lia.
  - apply Nat.ltb_ge in E.
    rewrite length_app, length_replicate. lia.
Qed.

Lemma SetBytes_short (n : nat) (b : list Z) :
  (length b <= n)%nat ->
  common.SetBytes n b = (replicate (n - length b) 0 ++ b)%list.
Proof.
  intros Hl. unfold common.SetBytes.
  destruct (n <? length b)%nat eqn:E; [apply Nat.ltb_lt in E; lia | reflexivity].
Qed.

Lemma SetBytes_exact (n : nat) (b : list Z) :
  length b = n -> common.SetBytes n b = b.
Proof.
  intros Hl. rewrite SetBytes_short by lia.
  replace (n - length b)%nat with 0%nat by lia. reflexivity.
Qed.

Lemma SetBytes_bytes (n : nat) (b : list Z) :
  Forall is_byte b -> Forall is_byte (common.SetBytes n b).
Proof.
  intros Hb. unfold common.SetBytes. apply Forall_app. split.
  - apply Forall_replicate. unfold is_byte. lia.
  - destruct (n <? length b)%nat; [apply Forall_drop|]; exact Hb.
Qed.

Lemma FromHex_valid (body : string) (bs : list Z) :
  hex.DecodeString body = (bs, None) ->
  common.FromHex body = bs /\ common.FromHex (String "0" (String "x" body)) = bs.
Proof.
  intros Hd. pose proof (DecodeString_length _ _ Hd) as Hl.
  assert (Hodd : Nat.odd (String.length body) = false).
  { rewrite Hl. rewrite Nat.odd_mul. reflexivity. }
  split.
  - unfold common.FromHex.
    destruct (common.has0xPrefix body) eqn:Ep.
    + (* a valid hex text has no x in second place *)
      destruct body as [|c [|d s]]; try discriminate.
      simpl in Ep. btrue.
      assert (Hx : hex.fromHexChar d = None).
      { destruct H0 as [H0|H0]; apply Ascii.eqb_eq in H0; subst d; reflexivity. }
      simpl in Hd. destruct (hex.fromHexChar c); [|discriminate].
      rewrite Hx in Hd. discriminate.
    + rewrite Hodd. unfold common.Hex2Bytes. rewrite Hd. reflexivity.
  - unfold common.FromHex. simpl (common.has0xPrefix _). cbv iota.
    simpl (strings.drop_bytes _ _). rewrite Hodd.
    unfold common.Hex2Bytes. rewrite Hd. reflexivity.
Qed.

(** C4, as the code has it: an Address descriptor never makes the parser
    fail. Every input gives a 20-byte address and a nil error, namely
    [HexToAddress] of the trimmed input; when the input, with or without a
    leading "0x", is valid hex of at most 20 bytes, the address is these
    bytes right-aligned behind zero bytes, and exactly these bytes when
    there are 20 of them. *)
Theorem C4_address_never_fails (argType : abi.Type_) (val : string) :
  abi.T argType = abi.AddressTy ->
  exists a : list Z,
    contractStringToValue argType val = Return (Some (VAddress a), None)
    /\ a = common.HexToAddress (strings.Trim val " ")
    /\ length a = 20%nat
    /\ Forall is_byte a
    /\ (forall (body : string) (bs : list Z),
          strings.Trim val " " = body \/ strings.Trim val " " = "0x" +:+ body ->
          hex.DecodeString body = (bs, None) ->
          (length bs <= 20)%nat ->
          a = (replicate (20 - length bs) 0 ++ bs)%list
          /\ (length bs = 20%nat -> a = bs)).
Proof.
  intros HT. exists (common.HexToAddress (strings.Trim val " ")).
  split; [|split; [|split; [|split]]].
  - unfold contractStringToValue. rewrite HT. reflexivity.
  - reflexivity.
  - apply SetBytes_length.
  - apply SetBytes_bytes, DecodeString_bytes.
  - intros body bs Hbody Hd Hl.
    destruct (FromHex_valid _ _ Hd) as [F1 F2].
    assert (HF : common.FromHex (strings.Trim val " ") = bs).
    { destruct Hbody as [-> | ->]; assumption. }
    unfold common.HexToAddress, common.BytesToAddress. rewrite HF.
    split.
    + apply SetBytes_short. exact Hl.
    + intros H20. apply SetBytes_exact. exact H20.
Qed.

Lemma C4_address_never_fails_witness :
  exists a : list Z,
    contractStringToValue (abi.mkType None 0 abi.AddressTy) " 0xBEEF" = Return (Some (VAddress a), None)
    /\ a = common.HexToAddress (strings.Trim " 0xBEEF" " ")
    /\ length a = 20%nat
    /\ Forall is_byte a
    /\ (forall (body : string) (bs : list Z),
          strings.Trim " 0xBEEF" " " = body \/ strings.Trim " 0xBEEF" " " = "0x" +:+ body ->
          hex.DecodeString body = (bs, None) ->
          (length bs <= 20)%nat ->
          a = (replicate (20 - length bs) 0 ++ bs)%list
          /\ (length bs = 20%nat -> a = bs)).
Proof. apply C4_address_never_fails. reflexivity. Defined.

(** C4 as stated fails: "zz" is not hex, and the parser returns the zero
    address with a nil error. *)
Lemma C4_counterexample :
  hex.DecodeString "zz" = ([], Some (hex.InvalidByteError "z"))
  /\ contractStringToValue (abi.mkType None 0 abi.AddressTy) "zz"
     = Return (Some (VAddress (replicate 20 0)), None)
  /\ ~ (exists e : error,
          contractStringToValue (abi.mkType None 0 abi.AddressTy) "zz"
          = Return (None, Some e)).
Proof.
  split; [reflexivity|]. split; [reflexivity|].
  intros [e He]. discriminate He.
Qed.

(** ** The cached base fee (C10) *)

Section BaseFeeCache.

Context {Client Block : Type}.
Variable StringToWei : string -> option Z * option error.
Variable CalcBaseFee : Block -> option Z.

Local Abbreviation call := (CurrentBaseFee Client Block StringToWei CalcBaseFee).
Local Abbreviation calls := (CurrentBaseFee_calls Client Block StringToWei CalcBaseFee).

(** With a client the connection is only read. *)
Lemma client_path_keeps_conn (w : World Client Block) (c : Conn Client) (cl : Client) :
  client Client c = Some cl -> snd (call w c) = c.
Proof.
  intros Hc. unfold CurrentBaseFee. rewrite Hc.
  destruct (BlockNumber _ _ w cl) as [n|e]; [|reflexivity].
  destruct (BlockByNumber _ _ w cl _) as [b|e]; [|reflexivity].
  destruct (baseFeePerGas Client c); [reflexivity|].
  destruct (CalcBaseFee b); reflexivity.
Qed.

(** A filled cache survives a call, and the call returns either the
    cached fee or an error. *)
Lemma cached_step (w : World Client Block) (c : Conn Client) (fee : Z) :
  baseFeePerGas Client c = Some fee ->
  snd (call w c) = c
  /\ (fst (call w c) = Return (Some fee, None)
      \/ exists e, fst (call w c) = Return (None, Some e)).
Proof.
  intros Hf. unfold CurrentBaseFee. rewrite Hf.
  destruct (client Client c) as [cl|]; [|split; [reflexivity | left; reflexivity]].
  destruct (BlockNumber _ _ w cl) as [n|e];
    [|split; [reflexivity | right; eexists; reflexivity]].
  destruct (BlockByNumber _ _ w cl _) as [b|e];
    [|split; [reflexivity | right; eexists; reflexivity]].
  split; [reflexivity | left; reflexivity].
Qed.

Lemma cached_calls (ws : list (World Client Block)) (c : Conn Client) (fee : Z) :
  baseFeePerGas Client c = Some fee ->
  snd (calls ws c) = c
  /\ length (fst (calls ws c)) = length ws
  /\ Forall (fun r => r = Return (Some fee, None) \/ exists e, r = Return (None, Some e))
       (fst (calls ws c)).
Proof.
  intros Hf. induction ws as [|w ws (IHc & IHl & IHr)]; cbn [CurrentBaseFee_calls].
  - split; [reflexivity | split; [reflexivity | constructor]].
  - destruct (cached_step w c fee Hf) as [Hc Hr].
    destruct (call w c) as [r c'] eqn:E. cbn [fst snd] in Hc, Hr. subst c'.
    destruct (calls ws c) as [rs c''] eqn:E'. cbn [fst snd] in *.
    destruct r as [r|].
    + cbn [fst snd length]. split; [exact IHc|]. split; [rewrite IHl; reflexivity|].
      constructor; assumption.
    + destruct Hr as [Hr | [e Hr]]; discriminate Hr.
Qed.

End BaseFeeCache.

(** C10, as the code has it: once the cache holds a fee, no call of
    CurrentBaseFee changes the connection or panics. Without a client every
    call returns the cached fee. With a client the call first asks for the
    block number and the block: when either request fails its error is
    returned, otherwise the cached fee is. Over any sequence of calls the
    cache is the same at the end and every call returned the cached fee or
    an error. With a client and an empty cache, the fee computed from the
    block is returned and the cache stays empty; when that computation
    panics, so does the call, and the cache stays empty as well. *)
Theorem C10_cached_base_fee (Client Block : Type)
    (StringToWei : string -> option Z * option error) (CalcBaseFee : Block -> option Z)
    (c : Conn Client) (fee : Z) :
  baseFeePerGas Client c = Some fee ->
  (forall w : World Client Block,
     snd (CurrentBaseFee Client Block StringToWei CalcBaseFee w c) = c
     /\ (client Client c = None ->
         fst (CurrentBaseFee Client Block StringToWei CalcBaseFee w c)
         = Return (Some fee, None))
     /\ (forall cl : Client, client Client c = Some cl ->
         fst (CurrentBaseFee Client Block StringToWei CalcBaseFee w c)
         = match BlockNumber Client Block w cl with
           | inr e => Return (None, Some e)
           | inl blockNum =>
               match BlockByNumber Client Block w cl (to_int 64 blockNum) with
               | inr e => Return (None, Some e)
               | inl _ => Return (Some fee, None)
               end
           end))
  /\ (forall ws : list (World Client Block),
        snd (CurrentBaseFee_calls Client Block StringToWei CalcBaseFee ws c) = c
        /\ length (fst (CurrentBaseFee_calls Client Block StringToWei CalcBaseFee ws c))
           = length ws
        /\ Forall (fun r => r = Return (Some fee, None)
                            \/ exists e, r = Return (None, Some e))
             (fst (CurrentBaseFee_calls Client Block StringToWei CalcBaseFee ws c)))
  /\ (forall (w : World Client Block) (c0 : Conn Client) (cl : Client)
        (blockNum : Z) (block : Block),
        client Client c0 = Some cl ->
        baseFeePerGas Client c0 = None ->
        BlockNumber Client Block w cl = inl blockNum ->
        BlockByNumber Client Block w cl (to_int 64 blockNum) = inl block ->
        CurrentBaseFee Client Block StringToWei CalcBaseFee w c0
        = (match CalcBaseFee block with
           | Some baseFee => Return (Some baseFee, None)
           | None => Panic
           end, c0)).
Proof.
  intros Hf. split; [|split].
  - intros w. split; [|split].
    + apply (cached_step StringToWei CalcBaseFee w c fee Hf).
    + intros Hc. unfold CurrentBaseFee. rewrite Hc, Hf. reflexivity.
    + intros cl Hc. unfold CurrentBaseFee. rewrite Hc, Hf.
      destruct (BlockNumber _ _ w cl) as [n|e]; [|reflexivity].
      destruct (BlockByNumber _ _ w cl _) as [b|e]; reflexivity.
  - intros ws. apply cached_calls. exact Hf.
  - intros w c0 cl blockNum block Hc H0 Hn Hb.
    unfold CurrentBaseFee. rewrite Hc, Hn, Hb, H0.
    destruct (CalcBaseFee block); reflexivity.
Qed.

Lemma C10_cached_base_fee_witness :
  (forall w : World unit Z,
     snd (CurrentBaseFee unit Z (fun _ => (Some 1, None)) london_fee w cached_conn)
     = cached_conn
     /\ (client unit cached_conn = None ->
         fst (CurrentBaseFee unit Z (fun _ => (Some 1, None)) london_fee w cached_conn)
         = Return (Some 7, None))
     /\ (forall cl : unit, client unit cached_conn = Some cl ->
         fst (CurrentBaseFee unit Z (fun _ => (Some 1, None)) london_fee w cached_conn)
         = match BlockNumber unit Z w cl with
           | inr e => Return (None, Some e)
           | inl blockNum =>
               match BlockByNumber unit Z w cl (to_int 64 blockNum) with
               | inr e => Return (None, Some e)
               | inl _ => Return (Some 7, None)
               end
           end))
  /\ (forall ws : list (World unit Z),
        snd (CurrentBaseFee_calls unit Z (fun _ => (Some 1, None)) london_fee ws cached_conn)
        = cached_conn
        /\ length (fst (CurrentBaseFee_calls unit Z (fun _ => (Some 1, None)) london_fee
                          ws cached_conn))
           = length ws
        /\ Forall (fun r => r = Return (Some 7, None)
                            \/ exists e, r = Return (None, Some e))
             (fst (CurrentBaseFee_calls unit Z (fun _ => (Some 1, None)) london_fee
                     ws cached_conn)))
  /\ (forall (w : World unit Z) (c0 : Conn unit) (cl : unit)
        (blockNum : Z) (block : Z),
        client unit c0 = Some cl ->
        baseFeePerGas unit c0 = None ->
        BlockNumber unit Z w cl = inl blockNum ->
        BlockByNumber unit Z w cl (to_int 64 blockNum) = inl block ->
        CurrentBaseFee unit Z (fun _ => (Some 1, None)) london_fee w c0
        = (match london_fee block with
           | Some baseFee => Return (Some baseFee, None)
           | None => Panic
           end, c0)).
Proof.
  apply (C10_cached_base_fee unit Z (fun _ => (Some 1, None)) london_fee cached_conn 7).
  reflexivity.
Defined.

(** C10 as stated fails: with a client whose request for the block number
    fails, a call on a connection that has fee 7 cached returns the
    request's error and no fee; the same connection returns 7 when the
    requests succeed. *)
Lemma C10_counterexample :
  baseFeePerGas unit cached_conn = Some 7
  /\ fst (CurrentBaseFee unit Z (fun _ => (Some 1, None)) london_fee
            offline_world cached_conn)
     = Return (None, Some (External "connection refused"))
  /\ fst (CurrentBaseFee unit Z (fun _ => (Some 1, None)) london_fee
            offline_world cached_conn)
     <> Return (Some 7, None)
  /\ fst (CurrentBaseFee unit Z (fun _ => (Some 1, None)) london_fee
            online_world cached_conn)
     = Return (Some 7, None).
Proof. repeat split; discriminate. Qed.

(** With a client and an empty cache, a head from before the base fee
    makes the call panic; a later head gives its fee. *)
Example basefee_panics_on_old_head :
  CurrentBaseFee unit Z one_gwei_parser london_fee old_head_world
    {| client := Some tt; baseFeePerGas := None |}
  = (Panic, {| client := Some tt; baseFeePerGas := None |})
  /\ CurrentBaseFee unit Z one_gwei_parser london_fee online_world
       {| client := Some tt; baseFeePerGas := None |}
     = (Return (Some 15000001, None), {| client := Some tt; baseFeePerGas := None |}).
Proof. split; reflexivity. Qed.

(** ** Decimal text *)

Lemma digit_char_val (d : Z) :
  0 <= d < 10 ->
  big.digitVal (chr (code "0" + d)) = Some d
  /\ Ascii.eqb (chr (code "0" + d)) "-" = false
  /\ Ascii.eqb (chr (code "0" + d)) "+" = false
  /\ Ascii.eqb (chr (code "0" + d)) " " = false.
Proof.
  intros Hd.
  pose (P := fun d =>
    match big.digitVal (chr (code "0" + d)) with
    | Some x => x =? d
    | None => false
    end
    && negb (Ascii.eqb (chr (code "0" + d)) "-")
    && negb (Ascii.eqb (chr (code "0" + d)) "+")
    && negb (Ascii.eqb (chr (code "0" + d)) " ")).
  assert (H : P d = true).
  { apply (forallb_below P 10); [vm_compute; reflexivity | lia]. }
  unfold P in H. btrue.
  destruct (big.digitVal (chr (code "0" + d))) as [x|]; [|discriminate].
  btrue. subst x.
  repeat split; [apply negb_true_iff; assumption ..].
Qed.

Lemma scan_formatBits (fuel : nat) :
  forall (u : Z) (acc : string),
    (0 < fuel)%nat -> 0 <= u < 2 ^ Z.of_nat fuel ->
    big.scan (fmt.formatBits fuel u acc) 10 0 = big.scan acc 10 u.
Proof.
  induction fuel as [|fuel IH]; intros u acc Hfuel Hu; [lia|].
  simpl fmt.formatBits.
  destruct (u <? 10) eqn:E.
  - apply Z.ltb_lt in E.
    destruct (digit_char_val u ltac:(lia)) as [Hd _].
    simpl. rewrite Hd.
    replace (u <? 10) with true by (symmetry; apply Z.ltb_lt; lia).
    reflexivity.
  - apply Z.ltb_ge in E.
    assert (Hpow : 2 ^ Z.of_nat (S fuel) = 2 * 2 ^ Z.of_nat fuel).
    { rewrite Nat2Z.inj_succ. apply Z.pow_succ_r. lia. }
    assert (Hq : 1 <= u / 10 < 2 ^ Z.of_nat fuel).
    { split.
      - apply Z.div_le_lower_bound; lia.
      - apply Z.div_lt_upper_bound; lia. }
    assert (Hf : (0 < fuel)%nat).
    { destruct fuel; [simpl in Hq; lia | lia]. }
    rewrite IH by (try assumption; lia).
    pose proof (Z.mod_pos_bound u 10 ltac:(lia)) as Hm.
    destruct (digit_char_val (u mod 10) Hm) as [Hd _].
    simpl. rewrite Hd.
    replace (u mod 10 <? 10) with true by (symmetry; apply Z.ltb_lt; lia).
    f_equal. pose proof (Z.div_mod u 10 ltac:(lia)). lia.
Qed.

(** The text starts with a digit. *)
Lemma formatBits_head (fuel : nat) :
  forall (u : Z) (acc : string),
    (0 < fuel)%nat -> 0 <= u ->
    exists (d : Z) (rest : string),
      0 <= d < 10 /\ fmt.formatBits fuel u acc = String (chr (code "0" + d)) rest.
Proof.
  induction fuel as [|fuel IH]; intros u acc Hfuel Hu; [lia|].
  simpl fmt.formatBits.
  destruct (u <? 10) eqn:E.
  - apply Z.ltb_lt in E. exists u, acc. split; [lia | reflexivity].
  - destruct fuel as [|fuel'].
    + simpl. exists (u mod 10), acc.
      split; [apply Z.mod_pos_bound; lia | reflexivity].
    + apply IH; [lia|]. apply Z.div_pos; lia.
Qed.

Lemma log2_fuel (u : Z) : 0 <= u -> u < 2 ^ Z.of_nat (S (Z.to_nat (Z.log2 u))).
Proof.
  intros Hu. rewrite Nat2Z.inj_succ, Z2Nat.id by apply Z.log2_nonneg.
  destruct (Z.eq_dec u 0) as [->|Hne]; [reflexivity|].
  apply Z.log2_spec. lia.
Qed.

Lemma SetString_FormatInt (z : Z) : big.SetString (fmt.FormatInt z) 10 = Some z.
Proof.
  unfold fmt.FormatInt.
  set (fuel := S (Z.to_nat (Z.log2 (Z.abs z)))).
  assert (Hscan : big.scan (fmt.formatBits fuel (Z.abs z) EmptyString) 10 0
                  = Some (Z.abs z)).
  { rewrite scan_formatBits; [reflexivity | unfold fuel; lia |].
    split; [lia | apply log2_fuel; lia]. }
  destruct (formatBits_head fuel (Z.abs z) EmptyString ltac:(unfold fuel; lia) ltac:(lia))
    as (d & rest & Hd & Hhead).
  destruct (digit_char_val d Hd) as (_ & Hminus & Hplus & _).
  rewrite Hhead in *.
  destruct (z <? 0) eqn:E.
  - apply Z.ltb_lt in E. unfold big.SetString.
    change (Ascii.eqb "-" "-") with true. cbv iota.
    rewrite Hscan. f_equal. lia.
  - apply Z.ltb_ge in E. unfold big.SetString.
    rewrite Hminus, Hplus, Hscan. f_equal. lia.
Qed.

(** ** Trimming *)

Lemma IndexByte_space (c : ascii) : strings.IndexByte " " c = Ascii.eqb c " ".
Proof. simpl. destruct (Ascii.eqb c " "); reflexivity. Qed.

Lemma TrimLeft_no_space (s : string) :
  no_space s = true -> strings.TrimLeft s " " = s.
Proof.
  destruct s as [|c rest]; [reflexivity|].
  simpl no_space. intros H. apply andb_true_iff in H as [Hc _].
  apply negb_true_iff in Hc.
  cbn [strings.TrimLeft]. rewrite IndexByte_space, Hc. reflexivity.
Qed.

Lemma TrimRight_no_space (s : string) :
  no_space s = true -> strings.TrimRight s " " = s.
Proof.
  induction s as [|c rest IH]; [reflexivity|].
  simpl no_space. intros H. apply andb_true_iff in H as [Hc Hrest].
  apply negb_true_iff in Hc.
  cbn [strings.TrimRight]. rewrite (IH Hrest), IndexByte_space, Hc.
  destruct rest; reflexivity.
Qed.

Lemma Trim_no_space (s : string) : no_space s = true -> strings.Trim s " " = s.
Proof.
  intros H. unfold strings.Trim.
  rewrite TrimLeft_no_space by exact H. apply TrimRight_no_space, H.
Qed.

Lemma formatBits_no_space (fuel : nat) :
  forall (u : Z) (acc : string),
    0 <= u -> no_space acc = true -> no_space (fmt.formatBits fuel u acc) = true.
Proof.
  induction fuel as [|fuel IH]; intros u acc Hu Hacc; [exact Hacc|].
  simpl fmt.formatBits.
  destruct (u <? 10) eqn:E.
  - apply Z.ltb_lt in E.
    destruct (digit_char_val u ltac:(lia)) as (_ & _ & _ & Hsp).
    simpl. rewrite Hsp, Hacc. reflexivity.
  - apply IH; [apply Z.div_pos; lia|].
    destruct (digit_char_val (u mod 10) ltac:(apply Z.mod_pos_bound; lia))
      as (_ & _ & _ & Hsp).
    simpl. rewrite Hsp, Hacc. reflexivity.
Qed.

Lemma FormatInt_no_space (z : Z) : no_space (fmt.FormatInt z) = true.
Proof.
  unfold fmt.FormatInt.
  set (digits := fmt.formatBits _ _ _).
  assert (H : no_space digits = true).
  { apply formatBits_no_space; [lia | reflexivity]. }
  cbv zeta. destruct (z <? 0); [|exact H].
  cbn [no_space]. rewrite H. reflexivity.
Qed.

(** ** Hex text, encoded and decoded *)

(** A digit of the table, in either case, decodes to its nibble and is
    not a space. *)
Lemma hextable_cased (n hashByte : Z) :
  0 <= n < 16 ->
  let c := hex.hextable n in
  let c' := if (code "9" <? code c) && (7 <? hashByte)
            then chr ((code c - 32) mod 256) else c in
  hex.fromHexChar c' = Some n /\ Ascii.eqb c' " " = false.
Proof.
  intros Hn.
  pose (ok := fun (n : Z) (c : ascii) =>
    match hex.fromHexChar c with Some x => x =? n | None => false end
    && negb (Ascii.eqb c " ")).
  pose (P := fun n =>
    ok n (hex.hextable n)
    && (if code "9" <? code (hex.hextable n)
        then ok n (chr ((code (hex.hextable n) - 32) mod 256)) else true)).
  assert (H : P n = true).
  { apply (forallb_below P 16); [vm_compute; reflexivity | lia]. }
  unfold P in H. apply andb_true_iff in H as [Hlow Hup].
  assert (Hok : forall c, ok n c = true ->
                  hex.fromHexChar c = Some n /\ Ascii.eqb c " " = false).
  { intros c Hc. unfold ok in Hc. apply andb_true_iff in Hc as [H1 H2].
    destruct (hex.fromHexChar c) as [x|]; [|discriminate].
    apply Z.eqb_eq in H1. subst x. apply negb_true_iff in H2. auto. }
  simpl.
  destruct (code "9" <? code (hex.hextable n)); simpl.
  - destruct (7 <? hashByte); apply Hok; assumption.
  - apply Hok; assumption.
Qed.

Lemma byte_nibbles (v : Z) :
  is_byte v ->
  0 <= Z.shiftr v 4 < 16 /\ 0 <= Z.land v 15 < 16
  /\ Z.lor (Z.shiftl (Z.shiftr v 4) 4) (Z.land v 15) = v.
Proof.
  intros Hv.
  pose (P := fun v =>
    (0 <=? Z.shiftr v 4) && (Z.shiftr v 4 <? 16)
    && (0 <=? Z.land v 15) && (Z.land v 15 <? 16)
    && (Z.lor (Z.shiftl (Z.shiftr v 4) 4) (Z.land v 15) =? v)).
  assert (H : P v = true).
  { apply (forallb_below P 256); [vm_compute; reflexivity | exact Hv]. }
  unfold P in H. btrue. lia.
Qed.

Lemma DecodeString_checksum (hash : list Z) (bs : list Z) :
  Forall is_byte bs ->
  forall j : nat,
    hex.DecodeString (common.checksum hash j (hex.EncodeToString bs)) = (bs, None)
    /\ no_space (common.checksum hash j (hex.EncodeToString bs)) = true.
Proof.
  induction 1 as [|v bs Hv _ IH]; intros j; [split; reflexivity|].
  destruct (byte_nibbles v Hv) as (Hhi & Hlo & Hv').
  destruct (IH (S (S j))) as [IHd IHs].
  simpl hex.EncodeToString. simpl common.checksum.
  destruct (hextable_cased (Z.shiftr v 4)
              (if Nat.even j then Z.shiftr (nth (j / 2) hash 0) 4
               else Z.land (nth (j / 2) hash 0) 15) Hhi) as [D1 S1].
  destruct (hextable_cased (Z.land v 15)
              (if Nat.even (S j) then Z.shiftr (nth (S j / 2) hash 0) 4
               else Z.land (nth (S j / 2) hash 0) 15) Hlo) as [D2 S2].
  simpl in D1, S1, D2, S2.
  split.
  - simpl hex.DecodeString. rewrite D1, D2, IHd, Hv'. reflexivity.
  - simpl no_space. rewrite S1, S2, IHs. reflexivity.
Qed.

Lemma checksum_nil (s : string) : forall j : nat, common.checksum [] j s = s.
Proof.
  induction s as [|c rest IH]; intros j; [reflexivity|].
  cbn [common.checksum]. rewrite IH.
  replace (nth (j / 2) [] 0) with 0 by (destruct (j / 2)%nat; reflexivity).
  destruct (Nat.even j);
    [change (7 <? Z.shiftr 0 4) with false | change (7 <? Z.land 0 15) with false];
    rewrite andb_false_r; reflexivity.
Qed.

Lemma DecodeString_EncodeToString (bs : list Z) :
  Forall is_byte bs ->
  hex.DecodeString (hex.EncodeToString bs) = (bs, None)
  /\ no_space (hex.EncodeToString bs) = true.
Proof.
  intros Hb. rewrite <- (checksum_nil (hex.EncodeToString bs) 0).
  apply DecodeString_checksum, Hb.
Qed.

Lemma forallb_is_byte (bs : list Z) : forallb is_byteb bs = true -> Forall is_byte bs.
Proof.
  induction bs as [|b bs IH]; simpl; intros H; constructor.
  - unfold is_byteb in H. unfold is_byte. btrue. lia.
  - apply IH. btrue. assumption.
Qed.

(** ** Round trip (C2) *)

Lemma Uint64_small (z : Z) : 0 <= z < 2 ^ 64 -> big.Uint64 z = z.
Proof.
  intros Hz. unfold big.Uint64. rewrite Z.abs_eq by lia.
  apply Z.mod_small. exact Hz.
Qed.

Lemma to_uint_Uint64 (w z : Z) :
  narrow_width w = true -> 0 <= z < 2 ^ w -> to_uint w (big.Uint64 z) = z.
Proof.
  intros Hw Hz. apply narrow_width_cases in Hw.
  assert (H64 : 2 ^ w <= 2 ^ 64) by (apply Z.pow_le_mono_r; lia).
  rewrite Uint64_small by lia. unfold to_uint. apply Z.mod_small. exact Hz.
Qed.

Lemma to_int_Uint64 (w z : Z) :
  narrow_width w = true -> 0 <= z < 2 ^ (w - 1) -> to_int w (big.Uint64 z) = z.
Proof.
  intros Hw Hz. apply narrow_width_cases in Hw.
  assert (H2 : 2 ^ w = 2 * 2 ^ (w - 1)).
  { replace w with (Z.succ (w - 1)) at 1 by lia. apply Z.pow_succ_r. lia. }
  assert (H64 : 2 ^ w <= 2 ^ 64) by (apply Z.pow_le_mono_r; lia).
  rewrite Uint64_small by lia. unfold to_int.
  rewrite Z.mod_small by lia. lia.
Qed.

Lemma parse_narrow_int (el : option abi.Type_) (w z : Z) (s : string) :
  narrow_width w = true ->
  big.SetString (strings.Trim s " ") 10 = Some z ->
  contractStringToValue (abi.mkType el w abi.IntTy) s
  = Return (Some (VInt w (to_int w (big.Uint64 z))), None)
  /\ contractStringToValue (abi.mkType el w abi.UintTy) s
     = Return (Some (VUint w (to_uint w (big.Uint64 z))), None).
Proof.
  intros Hw Hz. apply narrow_width_cases in Hw.
  unfold contractStringToValue. simpl abi.T. simpl abi.Size. cbv iota. rewrite Hz.
  destruct Hw as [ -> | [ -> | [ -> | -> ] ] ]; split; reflexivity.
Qed.

Lemma parse_wide_int (el : option abi.Type_) (w z : Z) (s : string) :
  narrow_width w = false ->
  big.SetString (strings.Trim s " ") 10 = Some z ->
  contractStringToValue (abi.mkType el w abi.IntTy) s = Return (Some (VBigInt z), None)
  /\ contractStringToValue (abi.mkType el w abi.UintTy) s = Return (Some (VBigInt z), None).
Proof.
  intros Hw Hz. unfold narrow_width in Hw.
  repeat (apply orb_false_iff in Hw; destruct Hw as [Hw ?]).
  unfold contractStringToValue. simpl abi.T. simpl abi.Size. cbv iota. rewrite Hz.
  repeat match goal with H : (w =? _) = false |- _ => rewrite H; clear H end.
  split; reflexivity.
Qed.

Lemma SetString_Trim_FormatInt (z : Z) :
  big.SetString (strings.Trim (fmt.FormatInt z) " ") 10 = Some z.
Proof.
  rewrite Trim_no_space by apply FormatInt_no_space. apply SetString_FormatInt.
Qed.

Lemma TrimPrefix_0x (s : string) :
  strings.TrimPrefix (String "0" (String "x" s)) "0x" = s.
Proof. reflexivity. Qed.

Section RoundTrip.

Variable Keccak256 : list Z -> list Z.

Lemma address_round_trip (a : list Z) :
  length a = common.AddressLength -> Forall is_byte a ->
  strings.Trim (common.Address_Hex Keccak256 a) " " = common.Address_Hex Keccak256 a
  /\ common.HexToAddress (common.Address_Hex Keccak256 a) = a.
Proof.
  intros Hl Hb. unfold common.Address_Hex.
  destruct (DecodeString_checksum
              (Keccak256 (common.bytes_of_string (hex.EncodeToString a))) a Hb 0)
    as [Hd Hs].
  split.
  - apply Trim_no_space. cbn [no_space]. rewrite Hs. reflexivity.
  - unfold common.HexToAddress, common.BytesToAddress.
    rewrite (proj2 (FromHex_valid _ _ Hd)). apply SetBytes_exact, Hl.
Qed.

Lemma hash_round_trip (h : list Z) :
  length h = common.HashLength -> Forall is_byte h ->
  strings.Trim (common.Hash_Hex h) " " = common.Hash_Hex h
  /\ common.HexToHash (common.Hash_Hex h) = h.
Proof.
  intros Hl Hb. unfold common.Hash_Hex.
  destruct (DecodeString_EncodeToString h Hb) as [Hd Hs].
  split.
  - apply Trim_no_space. cbn [no_space]. rewrite Hs. reflexivity.
  - unfold common.HexToHash, common.BytesToHash.
    rewrite (proj2 (FromHex_valid _ _ Hd)). apply SetBytes_exact, Hl.
Qed.

Lemma bytes_round_trip (el : option abi.Type_) (sz : Z) (bs : list Z) :
  Forall is_byte bs ->
  contractStringToValue (abi.mkType el sz abi.BytesTy) ("0x" +:+ hex.EncodeToString bs)
  = Return (Some (VBytes bs), None).
Proof.
  intros Hb. destruct (DecodeString_EncodeToString bs Hb) as [Hd Hs].
  unfold contractStringToValue. simpl abi.T. cbv iota.
  change ("0x" +:+ hex.EncodeToString bs)
    with (String "0" (String "x" (hex.EncodeToString bs))).
  rewrite Trim_no_space by (cbn [no_space]; rewrite Hs; reflexivity).
  rewrite TrimPrefix_0x, Hd. reflexivity.
Qed.

End RoundTrip.

(** C2, as the code has it: a value of a scalar kind that is
    representable at its descriptor renders to a text that parses back to
    the same value, when the value is a boolean, an address, a hash, a
    byte sequence, an unsigned integer, a big integer, a fixed-width
    signed integer that is not negative, or a string that trimming leaves
    unchanged. *)
Theorem C2_scalar_round_trip (Keccak256 : list Z -> list Z)
    (argType : abi.Type_) (v : value) :
  representable argType v = true ->
  survives_parse v = true ->
  exists s : string,
    contractValueToString Keccak256 argType v = Return (s, None)
    /\ contractStringToValue argType s = Return (Some v, None).
Proof.
  intros Hrep Hsur. destruct argType as [el sz t].
  unfold representable in Hrep. simpl abi.T in Hrep. simpl abi.Size in Hrep.
  destruct t; destruct v; try discriminate Hrep; simpl in Hsur.
  - (* int8 .. int64 *)
    btrue. subst width. exists (fmt.FormatInt z). split; [reflexivity|].
    rewrite (proj1 (parse_narrow_int el sz z _ ltac:(assumption)
                      (SetString_Trim_FormatInt z))).
    rewrite to_int_Uint64 by (try assumption; lia). reflexivity.
  - (* *big.Int, signed *)
    btrue. exists (fmt.FormatInt z). split; [reflexivity|].
    apply negb_true_iff in H.
    apply (proj1 (parse_wide_int el sz z _ H (SetString_Trim_FormatInt z))).
  - (* uint8 .. uint64 *)
    btrue. subst width. exists (fmt.FormatInt z). split; [reflexivity|].
    rewrite (proj2 (parse_narrow_int el sz z _ ltac:(assumption)
                      (SetString_Trim_FormatInt z))).
    rewrite to_uint_Uint64 by (try assumption; lia). reflexivity.
  - (* *big.Int, unsigned *)
    btrue. exists (fmt.FormatInt z). split; [reflexivity|].
    apply negb_true_iff in H.
    apply (proj2 (parse_wide_int el sz z _ H (SetString_Trim_FormatInt z))).
  - (* bool *)
    destruct b; [exists "true" | exists "false"]; split; reflexivity.
  - (* string *)
    apply String.eqb_eq in Hsur. exists s. split; [reflexivity|].
    unfold contractStringToValue. simpl abi.T. cbv iota. rewrite Hsur. reflexivity.
  - (* address *)
    btrue. apply forallb_is_byte in H0.
    destruct (address_round_trip Keccak256 a H H0) as [Ht Hr].
    exists (common.Address_Hex Keccak256 a). split; [reflexivity|].
    unfold contractStringToValue. simpl abi.T. cbv iota. rewrite Ht, Hr. reflexivity.
  - (* bytes *)
    apply forallb_is_byte in Hrep.
    exists ("0x" +:+ hex.EncodeToString bs). split; [reflexivity|].
    apply bytes_round_trip, Hrep.
  - (* hash *)
    btrue. apply forallb_is_byte in H0.
    destruct (hash_round_trip h H H0) as [Ht Hr].
    exists (common.Hash_Hex h). split; [reflexivity|].
    unfold contractStringToValue. simpl abi.T. cbv iota. rewrite Ht, Hr. reflexivity.
Qed.

Lemma C2_scalar_round_trip_witness :
  exists s : string,
    contractValueToString (fun _ => []) (abi.mkType None 16 abi.IntTy) (VInt 16 1234)
    = Return (s, None)
    /\ contractStringToValue (abi.mkType None 16 abi.IntTy) s
       = Return (Some (VInt 16 1234), None).
Proof. apply C2_scalar_round_trip; reflexivity. Defined.

(** C2 as stated fails: the string " a" is a value of the String kind; it
    renders to itself, and the parser trims it to "a". *)
Lemma C2_counterexample :
  representable (abi.mkType None 0 abi.StringTy) (VString " a") = true
  /\ contractValueToString (fun _ => []) (abi.mkType None 0 abi.StringTy) (VString " a")
     = Return (" a", None)
  /\ contractStringToValue (abi.mkType None 0 abi.StringTy) " a"
     = Return (Some (VString "a"), None)
  /\ VString "a" <> VString " a".
Proof. repeat split. discriminate. Qed.

(** A fixed-width signed integer below zero comes back as its magnitude
    narrowed: -1 at width 8 renders as "-1" and parses to 1. *)
Example int8_minus_one :
  contractValueToString (fun _ => []) (abi.mkType None 8 abi.IntTy) (VInt 8 (-1))
  = Return ("-1", None)
  /\ contractStringToValue (abi.mkType None 8 abi.IntTy) "-1"
     = Return (Some (VInt 8 1), None).
Proof. split; reflexivity. Qed.

(** * Further properties *)

(** ** Spaces around the input *)

Lemma TrimLeft_spaces (n : nat) (s : string) :
  strings.TrimLeft (spaces n +:+ s) " " = strings.TrimLeft s " ".
Proof. induction n as [|n IH]; [reflexivity | exact IH]. Qed.

Lemma TrimRight_spaces_only (m : nat) : strings.TrimRight (spaces m) " " = EmptyString.
Proof.
  induction m as [|m IH]; [reflexivity|].
  cbn [spaces strings.TrimRight]. rewrite IH. reflexivity.
Qed.

Lemma TrimRight_spaces (s : string) (m : nat) :
  strings.TrimRight (s +:+ spaces m) " " = strings.TrimRight s " ".
Proof.
  induction s as [|c rest IH].
  - change (EmptyString +:+ spaces m) with (spaces m).
    rewrite TrimRight_spaces_only. reflexivity.
  - change (String c rest +:+ spaces m) with (String c (rest +:+ spaces m)).
    cbn [strings.TrimRight]. rewrite IH. reflexivity.
Qed.

Lemma TrimLeft_spaces_only (m : nat) : strings.TrimLeft (spaces m) " " = EmptyString.
Proof. induction m as [|m IH]; [reflexivity | exact IH]. Qed.

Lemma Trim_padded (n m : nat) (s : string) :
  strings.Trim (spaces n +:+ s +:+ spaces m) " " = strings.Trim s " ".
Proof.
  unfold strings.Trim. rewrite TrimLeft_spaces.
  induction s as [|c rest IH].
  - change (EmptyString +:+ spaces m) with (spaces m).
    rewrite TrimLeft_spaces_only. reflexivity.
  - change (String c rest +:+ spaces m) with (String c (rest +:+ spaces m)).
    cbn [strings.TrimLeft]. destruct (strings.IndexByte " " c); [exact IH|].
    apply (TrimRight_spaces (String c rest) m).
Qed.

(** X1: spaces before and after the input never change what the parser
    does, whatever the descriptor. *)
Theorem parse_ignores_outer_spaces (argType : abi.Type_) (val : string) (n m : nat) :
  contractStringToValue argType (spaces n +:+ val +:+ spaces m)
  = contractStringToValue argType val.
Proof.
  unfold contractStringToValue. rewrite Trim_padded. reflexivity.
Qed.

(** ** When the parser panics *)

(** X2: the parser panics only at a FixedBytes descriptor, and there
    exactly when [make] refuses the size, which is negative or above the
    runtime's limit, or the hex text decodes to more bytes than the size. *)
Theorem parse_panics_iff (argType : abi.Type_) (val : string) :
  contractStringToValue argType val = Panic
  <-> abi.T argType = abi.FixedBytesTy
      /\ (abi.Size argType < 0
          \/ maxAlloc < abi.Size argType
          \/ (snd (hex.DecodeString (hex_body val)) = None
              /\ abi.Size argType
                 < Z.of_nat (length (fst (hex.DecodeString (hex_body val)))))).
Proof.
  unfold contractStringToValue, hex_body.
  destruct (abi.T argType) eqn:HT;
    try (split; [|intros [? _]; discriminate]);
    try (intros H; exfalso;
         repeat match type of H with
         | context [match ?x with _ => _ end] => destruct x
         | context [if ?b then _ else _] => destruct b
         end; discriminate H).
  (* FixedBytes *)
  destruct (hex.DecodeString (strings.TrimPrefix (strings.Trim val " ") "0x"))
    as [decoded err].
  cbn [fst snd].
  destruct (Z_lt_le_dec (abi.Size argType) 0) as [Hneg|Hneg].
  { unfold make_bytes.
    replace (abi.Size argType <? 0) with true by (symmetry; apply Z.ltb_lt; lia).
    split; [intros _; split; [reflexivity | left; lia] | reflexivity]. }
  destruct (Z_lt_le_dec maxAlloc (abi.Size argType)) as [Hbig|Hbig].
  { unfold make_bytes.
    replace (maxAlloc <? abi.Size argType) with true by (symmetry; apply Z.ltb_lt; lia).
    rewrite orb_true_r.
    split; [intros _; split; [reflexivity | right; left; lia] | reflexivity]. }
  rewrite make_bytes_within by lia.
  destruct err as [e|].
  - split.
    + intros H. destruct ((1 <=? abi.Size argType) && (abi.Size argType <=? 32));
        discriminate H.
    + intros [_ [Hn | [Hn | [Hd _]]]]; [lia | lia | discriminate Hd].
  - destruct (Z_lt_le_dec (abi.Size argType) (Z.of_nat (length decoded))) as [Hlt|Hle].
    + rewrite copy_into_negative by lia.
      split; [intros _; split; [reflexivity | right; right; split; [reflexivity | lia]]
             | reflexivity].
    + rewrite copy_into_right_aligned by lia.
      split.
      * intros H. destruct ((1 <=? abi.Size argType) && (abi.Size argType <=? 32));
          discriminate H.
      * intros [_ [Hn | [Hn | [_ Hl]]]]; lia.
Qed.

(** ** Which integer texts are accepted *)

Lemma digitVal_is_digit (c : ascii) :
  is_digit c = match big.digitVal c with
               | Some d => d <? 10
               | None => false
               end.
Proof.
  unfold is_digit, big.digitVal. cbv zeta.
  change (code "0") with 48. change (code "9") with 57.
  change (code "a") with 97. change (code "z") with 122.
  change (code "A") with 65. change (code "Z") with 90.
  destruct ((48 <=? code c) && (code c <=? 57)) eqn:E1.
  { btrue. symmetry. apply Z.ltb_lt. lia. }
  destruct ((97 <=? code c) && (code c <=? 122)) eqn:E2.
  { btrue. symmetry. apply Z.ltb_ge. lia. }
  destruct ((65 <=? code c) && (code c <=? 90)) eqn:E3.
  { btrue. symmetry. apply Z.ltb_ge. lia. }
  reflexivity.
Qed.

Lemma scan_all_digits (s : string) :
  forall acc : Z,
    (all_digits s = true -> exists n, big.scan s 10 acc = Some n)
    /\ (all_digits s = false -> big.scan s 10 acc = None).
Proof.
  induction s as [|c rest IH]; intros acc.
  - split; [intros _; eexists; reflexivity | discriminate].
  - cbn [all_digits big.scan]. rewrite digitVal_is_digit.
    destruct (big.digitVal c) as [d|]; [|split; [discriminate | reflexivity]].
    destruct (d <? 10); [|split; [discriminate | reflexivity]].
    exact (IH (acc * 10 + d)).
Qed.

Lemma SetString_is_decimal (s : string) :
  (is_decimal s = true -> exists z, big.SetString s 10 = Some z)
  /\ (is_decimal s = false -> big.SetString s 10 = None).
Proof.
  unfold is_decimal, big.SetString.
  destruct s as [|c rest]; [split; [discriminate | reflexivity]|].
  destruct (Ascii.eqb c "-") eqn:Em; [|destruct (Ascii.eqb c "+") eqn:Ep]; cbn [orb].
  - destruct rest as [|d rest']; [split; [discriminate | reflexivity]|].
    destruct (scan_all_digits (String d rest') 0) as [Hy Hn].
    split; intros H.
    + destruct (Hy H) as [n ->]. eexists. reflexivity.
    + rewrite (Hn H). reflexivity.
  - destruct rest as [|d rest']; [split; [discriminate | reflexivity]|].
    destruct (scan_all_digits (String d rest') 0) as [Hy Hn].
    split; intros H.
    + destruct (Hy H) as [n ->]. eexists. reflexivity.
    + rewrite (Hn H). reflexivity.
  - destruct (scan_all_digits (String c rest) 0) as [Hy Hn].
    split; intros H.
    + destruct (Hy H) as [n ->]. eexists. reflexivity.
    + rewrite (Hn H). reflexivity.
Qed.

(** X3: at an integer descriptor, signed or unsigned and of any width,
    the parser returns a value and a nil error when the trimmed input is
    an optional sign followed by decimal digits, and otherwise returns no
    value and the error "Bad integer" with the trimmed input. *)
Theorem parse_integer_accepts_iff_decimal (argType : abi.Type_) (val : string) :
  abi.T argType = abi.IntTy \/ abi.T argType = abi.UintTy ->
  (is_decimal (strings.Trim val " ") = true ->
     exists v : value, contractStringToValue argType val = Return (Some v, None))
  /\ (is_decimal (strings.Trim val " ") = false ->
     contractStringToValue argType val
     = Return (None, Some (BadInteger (strings.Trim val " ")))).
Proof.
  intros HT. destruct (SetString_is_decimal (strings.Trim val " ")) as [Hy Hn].
  unfold contractStringToValue. split; intros H.
  - destruct (Hy H) as [z Hz].
    destruct HT as [-> | ->]; rewrite Hz;
      repeat match goal with
      | |- context [if ?b then _ else _] => destruct b
      end; eexists; reflexivity.
  - rewrite (Hn H). destruct HT as [-> | ->]; reflexivity.
Qed.

Lemma parse_integer_accepts_iff_decimal_witness :
  (is_decimal (strings.Trim " 12a" " ") = true ->
     exists v : value,
       contractStringToValue (abi.mkType None 256 abi.UintTy) " 12a" = Return (Some v, None))
  /\ (is_decimal (strings.Trim " 12a" " ") = false ->
     contractStringToValue (abi.mkType None 256 abi.UintTy) " 12a"
     = Return (None, Some (BadInteger (strings.Trim " 12a" " ")))).
Proof.
  apply (parse_integer_accepts_iff_decimal (abi.mkType None 256 abi.UintTy) " 12a").
  right. reflexivity.
Defined.

(** ** Which hex texts are accepted *)

Lemma fromHexChar_is_hex_digit (c : ascii) :
  is_hex_digit c = match hex.fromHexChar c with Some _ => true | None => false end.
Proof.
  unfold is_hex_digit, hex.fromHexChar. cbv zeta.
  destruct ((code "0" <=? code c) && (code c <=? code "9")); [reflexivity|].
  destruct ((code "a" <=? code c) && (code c <=? code "f")); [reflexivity|].
  destruct ((code "A" <=? code c) && (code c <=? code "F")); reflexivity.
Qed.

Lemma DecodeString_is_hex_text (s : string) :
  is_hex_text s = true <-> snd (hex.DecodeString s) = None.
Proof.
  unfold is_hex_text.
  induction s as [|c|c d s IH] using string_pair_ind.
  - split; reflexivity.
  - cbn [all_hex hex.DecodeString String.length].
    rewrite fromHexChar_is_hex_digit.
    destruct (hex.fromHexChar c); cbn; split; discriminate.
  - cbn [all_hex hex.DecodeString String.length].
    rewrite !fromHexChar_is_hex_digit.
    destruct (hex.fromHexChar c); [|cbn; split; discriminate].
    destruct (hex.fromHexChar d); [|cbn; split; discriminate].
    destruct (hex.DecodeString s) as [ds e]. cbn [fst snd] in *.
    change (Nat.even (S (S (String.length s)))) with (Nat.even (String.length s)).
    cbn [andb]. exact IH.
Qed.

Lemma valid_pairs_decoded (s : string) :
  hex.DecodeString (valid_pairs s) = (fst (hex.DecodeString s), None)
  /\ (exists rest : string,
        s = valid_pairs s +:+ rest
        /\ (rest = EmptyString <-> snd (hex.DecodeString s) = None))
  /\ (forall e, snd (hex.DecodeString s) = Some e ->
        e = match first_non_hex s with
            | Some c => hex.InvalidByteError c
            | None => hex.ErrLength
            end).
Proof.
  induction s as [|c|c d s (IHd & (rest & IHr & IHe) & IHf)] using string_pair_ind.
  - split; [reflexivity|]. split; [exists EmptyString; split; [reflexivity | tauto]|].
    intros e [=].
  - cbn [valid_pairs hex.DecodeString first_non_hex].
    rewrite fromHexChar_is_hex_digit.
    destruct (hex.fromHexChar c); cbn [fst snd].
    + split; [reflexivity|]. split.
      * exists (String c EmptyString). split; [reflexivity|]. split; discriminate.
      * intros e [= <-]. reflexivity.
    + split; [reflexivity|]. split.
      * exists (String c EmptyString). split; [reflexivity|]. split; discriminate.
      * intros e [= <-]. reflexivity.
  - cbn [valid_pairs hex.DecodeString first_non_hex].
    rewrite !fromHexChar_is_hex_digit.
    destruct (hex.fromHexChar c) as [a|] eqn:Ec; cbn [andb fst snd].
    2:{ split; [reflexivity|]. split.
        - exists (String c (String d s)). split; [reflexivity|]. split; discriminate.
        - intros e [= <-]. reflexivity. }
    destruct (hex.fromHexChar d) as [b|] eqn:Ed; cbn [fst snd].
    2:{ split; [reflexivity|]. split.
        - exists (String c (String d s)). split; [reflexivity|]. split; discriminate.
        - intros e [= <-]. reflexivity. }
    destruct (hex.DecodeString s) as [ds e0]. cbn [fst snd] in *.
    split; [|split].
    + cbn [hex.DecodeString]. rewrite Ec, Ed, IHd. reflexivity.
    + exists rest. split; [|exact IHe].
      change (String c (String d (valid_pairs s)) +:+ rest)
        with (String c (String d (valid_pairs s +:+ rest))).
      rewrite <- IHr. reflexivity.
    + exact IHf.
Qed.

(** X4: at a Bytes descriptor the parser returns a nil error exactly when
    the trimmed input, without a leading "0x", is an even number of hex
    digits; the value then has half as many bytes as there are digits. On
    any other input it returns a hex error, naming the first byte that is
    not a hex digit, or the odd length when all are, together with the
    bytes decoded before the error: those of the leading pairs of hex
    digits. *)
Theorem parse_bytes_accepts_iff_hex (argType : abi.Type_) (val : string) :
  abi.T argType = abi.BytesTy ->
  exists (bs : list Z) (err : option error),
    contractStringToValue argType val = Return (Some (VBytes bs), err)
    /\ (err = None <-> is_hex_text (hex_body val) = true)
    /\ (err = None -> String.length (hex_body val) = (2 * length bs)%nat)
    /\ (err <> None ->
        err = Some (HexError
                      match first_non_hex (hex_body val) with
                      | Some c => hex.InvalidByteError c
                      | None => hex.ErrLength
                      end))
    /\ hex.DecodeString (valid_pairs (hex_body val)) = (bs, None)
    /\ String.length (valid_pairs (hex_body val)) = (2 * length bs)%nat
    /\ (exists rest : string,
          hex_body val = valid_pairs (hex_body val) +:+ rest
          /\ (rest = EmptyString <-> err = None))
    /\ Forall is_byte bs.
Proof.
  intros HT. unfold contractStringToValue. fold (hex_body val). rewrite HT.
  pose proof (DecodeString_is_hex_text (hex_body val)) as Hiff.
  pose proof (DecodeString_bytes (hex_body val)) as Hb.
  pose proof (DecodeString_length (hex_body val)) as Hl.
  destruct (valid_pairs_decoded (hex_body val)) as (Hv & (rest & Hr & He) & Hf).
  pose proof (DecodeString_length _ _ Hv) as Hvl.
  destruct (hex.DecodeString (hex_body val)) as [decoded err].
  cbn [fst snd] in *. exists decoded, (option_map HexError err).
  split; [reflexivity|]. repeat split.
  - intros H. apply Hiff. destruct err; [discriminate H | reflexivity].
  - intros H. apply Hiff in H. subst err. reflexivity.
  - intros H. destruct err; [discriminate H|]. apply Hl. reflexivity.
  - intros H. destruct err as [e|]; [|contradiction].
    cbn [option_map]. rewrite (Hf e eq_refl). reflexivity.
  - exact Hv.
  - exact Hvl.
  - exists rest. split; [exact Hr|]. rewrite He.
    destruct err; split; intros H; try reflexivity; discriminate H.
  - exact Hb.
Qed.

Lemma parse_bytes_accepts_iff_hex_witness :
  exists (bs : list Z) (err : option error),
    contractStringToValue (abi.mkType None 0 abi.BytesTy) "0xabzz"
    = Return (Some (VBytes bs), err)
    /\ (err = None <-> is_hex_text (hex_body "0xabzz") = true)
    /\ (err = None -> String.length (hex_body "0xabzz") = (2 * length bs)%nat)
    /\ (err <> None ->
        err = Some (HexError
                      match first_non_hex (hex_body "0xabzz") with
                      | Some c => hex.InvalidByteError c
                      | None => hex.ErrLength
                      end))
    /\ hex.DecodeString (valid_pairs (hex_body "0xabzz")) = (bs, None)
    /\ String.length (valid_pairs (hex_body "0xabzz")) = (2 * length bs)%nat
    /\ (exists rest : string,
          hex_body "0xabzz" = valid_pairs (hex_body "0xabzz") +:+ rest
          /\ (rest = EmptyString <-> err = None))
    /\ Forall is_byte bs.
Proof. apply parse_bytes_accepts_iff_hex. reflexivity. Defined.

(** The bytes before the error: "0xabzz" gives the byte ab and the error
    for "z"; an odd number of digits gives the whole bytes and the length
    error. *)
Example parse_bytes_partial :
  contractStringToValue (abi.mkType None 0 abi.BytesTy) "0xabzz"
  = Return (Some (VBytes [171]), Some (HexError (hex.InvalidByteError "z")))
  /\ contractStringToValue (abi.mkType None 0 abi.BytesTy) "0xabc"
     = Return (Some (VBytes [171]), Some (HexError hex.ErrLength)).
Proof. split; reflexivity. Qed.

(** ** Fixed-size byte arrays, rendered and parsed *)

Lemma mapM_Uint_bytes (bs : list Z) :
  mapM reflect.Uint (map (VUint 8) bs) = Some bs.
Proof.
  induction bs as [|b bs IH]; [reflexivity|].
  cbn. rewrite IH. reflexivity.
Qed.

Lemma map_mod_bytes (bs : list Z) :
  Forall is_byte bs -> map (fun u => u mod 256) bs = bs.
Proof.
  induction 1 as [|b bs Hb _ IH]; [reflexivity|].
  cbn. rewrite IH. f_equal. apply Z.mod_small. exact Hb.
Qed.

Lemma EncodeToString_length (bs : list Z) :
  String.length (hex.EncodeToString bs) = (2 * length bs)%nat.
Proof.
  induction bs as [|b bs IH]; [reflexivity|].
  cbn [hex.EncodeToString String.length length]. rewrite IH. lia.
Qed.

Lemma render_byte_array (Keccak256 : list Z -> list Z)
    (el : option abi.Type_) (sz : Z) (bs : list Z) :
  Forall is_byte bs ->
  contractValueToString Keccak256 (abi.mkType el sz abi.FixedBytesTy) (VByteArray bs)
  = Return ("0x" +:+ hex.EncodeToString bs, None).
Proof.
  intros Hb. cbn [contractValueToString reflect.elems].
  rewrite mapM_Uint_bytes, (map_mod_bytes bs Hb). reflexivity.
Qed.

Lemma parse_fixed_hex (el : option abi.Type_) (bs : list Z) :
  Forall is_byte bs ->
  (1 <= length bs <= 32)%nat ->
  contractStringToValue (abi.mkType el (Z.of_nat (length bs)) abi.FixedBytesTy)
    ("0x" +:+ hex.EncodeToString bs)
  = Return (Some (VByteArray bs), None).
Proof.
  intros Hb Hl. destruct (DecodeString_EncodeToString bs Hb) as [Hd Hs].
  unfold contractStringToValue. cbn [abi.T abi.Size].
  change ("0x" +:+ hex.EncodeToString bs)
    with (String "0" (String "x" (hex.EncodeToString bs))).
  rewrite Trim_no_space by (cbn [no_space]; rewrite Hs; reflexivity).
  rewrite TrimPrefix_0x, Hd, make_bytes_nonneg by lia.
  rewrite copy_into_right_aligned by lia.
  replace (Z.to_nat (Z.of_nat (length bs)) - length bs)%nat with 0%nat by lia.
  replace (1 <=? Z.of_nat (length bs)) with true by (symmetry; apply Z.leb_le; lia).
  replace (Z.of_nat (length bs) <=? 32) with true by (symmetry; apply Z.leb_le; lia).
  reflexivity.
Qed.

(** X5: a fixed-size byte array of 1 to 32 bytes renders as "0x" and two
    lower-case hex digits per byte, and that text parses back to the same
    array at the descriptor of its size. *)
Theorem fixedbytes_round_trip (Keccak256 : list Z -> list Z)
    (argType : abi.Type_) (bs : list Z) :
  abi.T argType = abi.FixedBytesTy ->
  abi.Size argType = Z.of_nat (length bs) ->
  (1 <= length bs <= 32)%nat ->
  Forall is_byte bs ->
  contractValueToString Keccak256 argType (VByteArray bs)
  = Return ("0x" +:+ hex.EncodeToString bs, None)
  /\ contractStringToValue argType ("0x" +:+ hex.EncodeToString bs)
     = Return (Some (VByteArray bs), None).
Proof.
  intros HT HS Hl Hb. destruct argType as [el sz t]. cbn in HT, HS. subst t sz.
  split; [apply render_byte_array, Hb | apply parse_fixed_hex; assumption].
Qed.

Lemma fixedbytes_round_trip_witness :
  contractValueToString (fun _ => []) (abi.mkType None 3 abi.FixedBytesTy)
    (VByteArray [0; 171; 255])
  = Return ("0x" +:+ hex.EncodeToString [0; 171; 255], None)
  /\ contractStringToValue (abi.mkType None 3 abi.FixedBytesTy)
       ("0x" +:+ hex.EncodeToString [0; 171; 255])
     = Return (Some (VByteArray [0; 171; 255]), None).
Proof.
  apply fixedbytes_round_trip;
    [reflexivity | reflexivity | simpl; lia
    | repeat constructor; unfold is_byte; lia].
Defined.

(** What a FixedBytes parse returns, when it returns a value. *)
Lemma parse_fixedbytes_value (argType : abi.Type_) (val : string) (v : value)
    (err : option error) :
  abi.T argType = abi.FixedBytesTy ->
  contractStringToValue argType val = Return (Some v, err) ->
  exists bs : list Z,
    v = VByteArray bs /\ err = None
    /\ 1 <= abi.Size argType <= 32
    /\ Z.of_nat (length bs) = abi.Size argType
    /\ Forall is_byte bs.
Proof.
  intros HT. unfold contractStringToValue. rewrite HT. unfold make_bytes.
  destruct ((abi.Size argType <? 0) || (maxAlloc <? abi.Size argType)) eqn:Eneg;
    [discriminate|].
  apply orb_false_iff in Eneg as [Eneg _]. apply Z.ltb_ge in Eneg.
  pose proof (DecodeString_bytes (strings.TrimPrefix (strings.Trim val " ") "0x")) as Hb.
  destruct (hex.DecodeString (strings.TrimPrefix (strings.Trim val " ") "0x"))
    as [decoded e]. cbn [fst] in Hb.
  assert (Hz : Forall is_byte (replicate (Z.to_nat (abi.Size argType)) 0)).
  { apply Forall_replicate. unfold is_byte. lia. }
  destruct e as [e|].
  - destruct ((1 <=? abi.Size argType) && (abi.Size argType <=? 32)) eqn:Es;
      [|discriminate].
    intros [= <- <-]. btrue. eexists. split; [reflexivity|].
    split; [reflexivity|]. split; [lia|]. split; [rewrite length_replicate; lia | exact Hz].
  - destruct (Z_lt_le_dec (abi.Size argType) (Z.of_nat (length decoded))) as [Hlt|Hle].
    { rewrite copy_into_negative by lia. discriminate. }
    rewrite copy_into_right_aligned by lia.
    destruct ((1 <=? abi.Size argType) && (abi.Size argType <=? 32)) eqn:Es;
      [|discriminate].
    intros [= <- <-]. btrue. eexists. split; [reflexivity|].
    split; [reflexivity|]. split; [lia|]. split.
    + rewrite length_app, length_replicate. lia.
    + apply Forall_app. split; [|exact Hb].
      apply Forall_replicate. unfold is_byte. lia.
Qed.

(** X6: whatever a FixedBytes parse accepts, the value it returns has
    exactly the descriptor's size; rendering that value gives "0x" and
    twice the size in hex digits, and parsing the rendering gives the same
    value again. *)
Theorem fixedbytes_parse_render_parse (Keccak256 : list Z -> list Z)
    (argType : abi.Type_) (val : string) (v : value) :
  abi.T argType = abi.FixedBytesTy ->
  contractStringToValue argType val = Return (Some v, None) ->
  exists (bs : list Z) (s : string),
    v = VByteArray bs
    /\ Z.of_nat (length bs) = abi.Size argType
    /\ contractValueToString Keccak256 argType v = Return (s, None)
    /\ Z.of_nat (String.length s) = 2 + 2 * abi.Size argType
    /\ contractStringToValue argType s = Return (Some v, None).
Proof.
  intros HT Hp.
  destruct (parse_fixedbytes_value argType val v None HT Hp)
    as (bs & -> & _ & Hs & Hl & Hb).
  exists bs, ("0x" +:+ hex.EncodeToString bs).
  destruct argType as [el sz t]. cbn [abi.T abi.Size] in HT, Hs, Hl |- *. subst t.
  split; [reflexivity|]. split; [exact Hl|].
  split; [apply render_byte_array, Hb|]. split.
  - change ("0x" +:+ hex.EncodeToString bs)
      with (String "0" (String "x" (hex.EncodeToString bs))).
    cbn [String.length]. rewrite EncodeToString_length. lia.
  - rewrite <- Hl. apply parse_fixed_hex; [exact Hb | lia].
Qed.

Lemma fixedbytes_parse_render_parse_witness :
  exists (bs : list Z) (s : string),
    VByteArray [0; 0; 0; 171] = VByteArray bs
    /\ Z.of_nat (length bs) = abi.Size (abi.mkType None 4 abi.FixedBytesTy)
    /\ contractValueToString (fun _ => []) (abi.mkType None 4 abi.FixedBytesTy)
         (VByteArray [0; 0; 0; 171]) = Return (s, None)
    /\ Z.of_nat (String.length s) = 2 + 2 * abi.Size (abi.mkType None 4 abi.FixedBytesTy)
    /\ contractStringToValue (abi.mkType None 4 abi.FixedBytesTy) s
       = Return (Some (VByteArray [0; 0; 0; 171]), None).
Proof.
  apply (fixedbytes_parse_render_parse (fun _ => [])
           (abi.mkType None 4 abi.FixedBytesTy) " 0xAB"); reflexivity.
Defined.

(** X7: at a FixedBytes descriptor whose size is not between 1 and 32 the
    parser never returns a value, and which of its two other outcomes it
    has is decided by the size and the text alone: it panics when [make]
    refuses the size (negative, or above the runtime's limit) or when the
    text is hex of more digits than twice the size, and returns the error
    "Invalid byte size" in every other case, so also for text that is not
    hex. *)
Theorem fixedbytes_invalid_size (argType : abi.Type_) (val : string) :
  abi.T argType = abi.FixedBytesTy ->
  abi.Size argType < 1 \/ 32 < abi.Size argType ->
  contractStringToValue argType val
  = if (abi.Size argType <? 0) || (maxAlloc <? abi.Size argType) then Panic
    else if is_hex_text (hex_body val)
            && (2 * abi.Size argType <? Z.of_nat (String.length (hex_body val)))
         then Panic
         else Return (None, Some (InvalidByteSize (abi.Size argType))).
Proof.
  intros HT Hs.
  assert (Eb : (1 <=? abi.Size argType) && (abi.Size argType <=? 32) = false).
  { apply andb_false_iff. destruct Hs; [left; apply Z.leb_gt | right; apply Z.leb_gt]; lia. }
  pose proof (DecodeString_is_hex_text (hex_body val)) as Hiff.
  pose proof (DecodeString_length (hex_body val)) as Hlen.
  unfold contractStringToValue, hex_body in *. rewrite HT. unfold make_bytes.
  destruct ((abi.Size argType <? 0) || (maxAlloc <? abi.Size argType)) eqn:Eneg;
    [reflexivity|].
  apply orb_false_iff in Eneg as [Eneg _]. apply Z.ltb_ge in Eneg.
  destruct (hex.DecodeString (strings.TrimPrefix (strings.Trim val " ") "0x"))
    as [decoded e]. cbn [snd] in Hiff.
  destruct e as [e|].
  - rewrite Eb.
    destruct (is_hex_text _); [|reflexivity].
    discriminate (proj1 Hiff eq_refl).
  - rewrite (proj2 Hiff eq_refl), (Hlen decoded eq_refl). cbn [andb].
    destruct (Z_lt_le_dec (abi.Size argType) (Z.of_nat (length decoded))) as [Hlt|Hle].
    + rewrite copy_into_negative by lia.
      replace (2 * abi.Size argType <? Z.of_nat (2 * length decoded)) with true
        by (symmetry; apply Z.ltb_lt; lia).
      reflexivity.
    + rewrite copy_into_right_aligned by lia. rewrite Eb.
      replace (2 * abi.Size argType <? Z.of_nat (2 * length decoded)) with false
        by (symmetry; apply Z.ltb_ge; lia).
      reflexivity.
Qed.

Lemma fixedbytes_invalid_size_witness :
  contractStringToValue (abi.mkType None 40 abi.FixedBytesTy) " 0xzz"
  = if (abi.Size (abi.mkType None 40 abi.FixedBytesTy) <? 0)
       || (maxAlloc <? abi.Size (abi.mkType None 40 abi.FixedBytesTy))
    then Panic
    else if is_hex_text (hex_body " 0xzz")
            && (2 * abi.Size (abi.mkType None 40 abi.FixedBytesTy)
                <? Z.of_nat (String.length (hex_body " 0xzz")))
         then Panic
         else Return (None, Some (InvalidByteSize
                                    (abi.Size (abi.mkType None 40 abi.FixedBytesTy)))).
Proof.
  apply (fixedbytes_invalid_size (abi.mkType None 40 abi.FixedBytesTy) " 0xzz");
    [reflexivity | right; simpl; lia].
Defined.

(** The three outcomes at sizes outside 1 to 32: a refused size, hex text
    that is too long, and the error. *)
Example fixedbytes_invalid_size_cases :
  contractStringToValue (abi.mkType None (-1) abi.FixedBytesTy) "0xab" = Panic
  /\ contractStringToValue (abi.mkType None (2 ^ 62) abi.FixedBytesTy) "zz" = Panic
  /\ contractStringToValue (abi.mkType None 0 abi.FixedBytesTy) "0xab" = Panic
  /\ contractStringToValue (abi.mkType None 0 abi.FixedBytesTy) "0xzz"
     = Return (None, Some (InvalidByteSize 0))
  /\ contractStringToValue (abi.mkType None 33 abi.FixedBytesTy) "0xab"
     = Return (None, Some (InvalidByteSize 33)).
Proof. repeat split. Qed.

(** ** Hashes, and addresses from long or odd text *)

Lemma SetBytes_long (n : nat) (b : list Z) :
  (n < length b)%nat -> common.SetBytes n b = drop (length b - n) b.
Proof.
  intros Hl. unfold common.SetBytes.
  replace (n <? length b)%nat with true by (symmetry; apply Nat.ltb_lt; exact Hl).
  rewrite length_drop.
  replace (n - (length b - (length b - n)))%nat with 0%nat by lia.
  reflexivity.
Qed.

(** X8: a Hash descriptor never makes the parser fail. Every input gives
    32 bytes and a nil error; valid hex, with or without "0x", of at most
    32 bytes is right-aligned behind zero bytes, and of longer text the
    last 32 bytes are kept. *)
Theorem parse_hash_never_fails (argType : abi.Type_) (val : string) :
  abi.T argType = abi.HashTy ->
  exists h : list Z,
    contractStringToValue argType val = Return (Some (VHash h), None)
    /\ length h = 32%nat
    /\ Forall is_byte h
    /\ (forall (body : string) (bs : list Z),
          strings.Trim val " " = body \/ strings.Trim val " " = "0x" +:+ body ->
          hex.DecodeString body = (bs, None) ->
          ((length bs <= 32)%nat -> h = (replicate (32 - length bs) 0 ++ bs)%list)
          /\ ((32 < length bs)%nat -> h = drop (length bs - 32) bs)).
Proof.
  intros HT. exists (common.HexToHash (strings.Trim val " ")).
  split; [|split; [|split]].
  - unfold contractStringToValue. rewrite HT. reflexivity.
  - apply SetBytes_length.
  - apply SetBytes_bytes, DecodeString_bytes.
  - intros body bs Hbody Hd.
    destruct (FromHex_valid _ _ Hd) as [F1 F2].
    assert (HF : common.FromHex (strings.Trim val " ") = bs).
    { destruct Hbody as [-> | ->]; assumption. }
    unfold common.HexToHash, common.BytesToHash. rewrite HF.
    split; intros Hl; [apply SetBytes_short | apply SetBytes_long]; exact Hl.
Qed.

Lemma parse_hash_never_fails_witness :
  exists h : list Z,
    contractStringToValue (abi.mkType None 0 abi.HashTy) "0x01zz" = Return (Some (VHash h), None)
    /\ length h = 32%nat
    /\ Forall is_byte h
    /\ (forall (body : string) (bs : list Z),
          strings.Trim "0x01zz" " " = body \/ strings.Trim "0x01zz" " " = "0x" +:+ body ->
          hex.DecodeString body = (bs, None) ->
          ((length bs <= 32)%nat -> h = (replicate (32 - length bs) 0 ++ bs)%list)
          /\ ((32 < length bs)%nat -> h = drop (length bs - 32) bs)).
Proof. apply parse_hash_never_fails. reflexivity. Defined.

Lemma all_hex_no_space (s : string) : all_hex s = true -> no_space s = true.
Proof.
  induction s as [|c rest IH]; [reflexivity|].
  cbn [all_hex no_space]. intros H. apply andb_true_iff in H as [Hc Hr].
  rewrite (IH Hr), andb_true_r. apply negb_true_iff.
  destruct (Ascii.eqb c " ") eqn:E; [|reflexivity].
  apply Ascii.eqb_eq in E. subst c. discriminate Hc.
Qed.

Lemma all_hex_no_0x (s : string) : all_hex s = true -> common.has0xPrefix s = false.
Proof.
  destruct s as [|c [|d rest]]; try reflexivity.
  cbn [all_hex common.has0xPrefix]. intros H.
  apply andb_true_iff in H as [_ H]. apply andb_true_iff in H as [Hd _].
  destruct (Ascii.eqb d "x") eqn:Ex.
  { apply Ascii.eqb_eq in Ex. subst d. discriminate Hd. }
  destruct (Ascii.eqb d "X") eqn:EX.
  { apply Ascii.eqb_eq in EX. subst d. discriminate Hd. }
  apply andb_false_r.
Qed.

Lemma FromHex_odd (body : string) :
  all_hex body = true -> Nat.odd (String.length body) = true ->
  snd (hex.DecodeString (String "0" body)) = None
  /\ common.FromHex body = fst (hex.DecodeString (String "0" body))
  /\ common.FromHex ("0x" +:+ body) = fst (hex.DecodeString (String "0" body)).
Proof.
  intros Hh Ho. split; [|split].
  - apply DecodeString_is_hex_text. unfold is_hex_text.
    cbn [all_hex String.length]. rewrite Hh.
    rewrite Nat.even_succ, Ho. reflexivity.
  - unfold common.FromHex. rewrite (all_hex_no_0x body Hh), Ho. reflexivity.
  - unfold common.FromHex.
    change ("0x" +:+ body) with (String "0" (String "x" body)).
    cbn [common.has0xPrefix strings.drop_bytes].
    change (Ascii.eqb "0" "0" && (Ascii.eqb "x" "x" || Ascii.eqb "x" "X")) with true.
    cbv iota. rewrite Ho. reflexivity.
Qed.

(** X9: at an Address descriptor, valid hex of more than 20 bytes is
    cropped from the left, so that the last 20 bytes are the address; and
    an odd number of hex digits is read as if a "0" stood in front of
    them. Neither is an error. *)
Theorem parse_address_long_and_odd (argType : abi.Type_) (val body : string) :
  abi.T argType = abi.AddressTy ->
  strings.Trim val " " = body \/ strings.Trim val " " = "0x" +:+ body ->
  (forall bs : list Z,
     hex.DecodeString body = (bs, None) ->
     (20 < length bs)%nat ->
     contractStringToValue argType val
     = Return (Some (VAddress (drop (length bs - 20) bs)), None))
  /\ (all_hex body = true ->
      Nat.odd (String.length body) = true ->
      exists bs : list Z,
        hex.DecodeString (String "0" body) = (bs, None)
        /\ contractStringToValue argType val
           = Return (Some (VAddress (common.BytesToAddress bs)), None)).
Proof.
  intros HT Hbody. unfold contractStringToValue. rewrite HT.
  unfold common.HexToAddress. split.
  - intros bs Hd Hl. destruct (FromHex_valid _ _ Hd) as [F1 F2].
    assert (HF : common.FromHex (strings.Trim val " ") = bs).
    { destruct Hbody as [-> | ->]; assumption. }
    rewrite HF. unfold common.BytesToAddress.
    rewrite SetBytes_long by exact Hl. reflexivity.
  - intros Hh Ho. destruct (FromHex_odd body Hh Ho) as (Hs & F1 & F2).
    exists (fst (hex.DecodeString (String "0" body))). split.
    + destruct (hex.DecodeString (String "0" body)) as [bs e].
      cbn [fst snd] in *. subst e. reflexivity.
    + destruct Hbody as [-> | ->]; [rewrite F1 | rewrite F2]; reflexivity.
Qed.

Lemma parse_address_long_and_odd_witness :
  (forall bs : list Z,
     hex.DecodeString "abc" = (bs, None) ->
     (20 < length bs)%nat ->
     contractStringToValue (abi.mkType None 0 abi.AddressTy) " 0xabc"
     = Return (Some (VAddress (drop (length bs - 20) bs)), None))
  /\ (all_hex "abc" = true ->
      Nat.odd (String.length "abc") = true ->
      exists bs : list Z,
        hex.DecodeString (String "0" "abc") = (bs, None)
        /\ contractStringToValue (abi.mkType None 0 abi.AddressTy) " 0xabc"
           = Return (Some (VAddress (common.BytesToAddress bs)), None)).
Proof.
  apply (parse_address_long_and_odd (abi.mkType None 0 abi.AddressTy) " 0xabc" "abc");
    [reflexivity | right; reflexivity].
Defined.

(** ** Errors of the renderer *)

Lemma render_elems_error (f : value -> outcome (string * option error))
    (P : error -> Prop) :
  (forall v s e, f v = Return (s, Some e) -> P e) ->
  forall (vs : list value) (err : error),
    render_elems (Some f) vs = Return (inr err) -> P err.
Proof.
  intros Hf vs. induction vs as [|v rest IH]; intros err; cbn [render_elems].
  - discriminate.
  - destruct (f v) as [[s [e|]]|] eqn:Ev; [| |discriminate].
    + intros [= <-]. exact (Hf v s e Ev).
    + destruct (render_elems (Some f) rest) as [[res|e']|]; [discriminate | | discriminate].
      intros [= <-]. apply IH. reflexivity.
Qed.

(** X10: when the renderer returns an error, the returned string is empty
    and the error names the innermost element descriptor, whose kind is
    FixedPoint or Function ("Unhandled type") or Tuple ("Unknown type").
    At every other descriptor the renderer returns no error. *)
Theorem render_error_names_innermost (Keccak256 : list Z -> list Z) :
  forall (argType : abi.Type_) (val : value) (s : string) (e : error),
    contractValueToString Keccak256 argType val = Return (s, Some e) ->
    s = EmptyString
    /\ (((abi.T (innermost argType) = abi.FixedPointTy
          \/ abi.T (innermost argType) = abi.FunctionTy)
         /\ e = UnhandledType (innermost argType))
        \/ (abi.T (innermost argType) = abi.TupleTy
            /\ e = UnknownType (innermost argType))).
Proof.
  fix IH 1. intros [el sz t] val s e.
  destruct t; cbn [contractValueToString].
  - discriminate.
  - discriminate.
  - destruct val as [| | |[|]| | | | | |]; discriminate.
  - destruct val; discriminate.
  - (* slice *)
    destruct (reflect.elems val) as [vs|]; [|discriminate].
    destruct el as [e0|].
    + destruct (render_elems (Some (contractValueToString Keccak256 e0)) vs)
        as [[res|err]|] eqn:Er; [discriminate | | discriminate].
      intros [= <- <-]. split; [reflexivity|]. cbn [innermost].
      refine (render_elems_error _
                (fun err => ((abi.T (innermost e0) = abi.FixedPointTy
                              \/ abi.T (innermost e0) = abi.FunctionTy)
                             /\ err = UnhandledType (innermost e0))
                            \/ (abi.T (innermost e0) = abi.TupleTy
                                /\ err = UnknownType (innermost e0)))
                _ vs err Er).
      intros v s' e' Hv. exact (proj2 (IH e0 v s' e' Hv)).
    + destruct vs; cbn [render_elems]; discriminate.
  - (* array *)
    destruct (reflect.elems val) as [vs|]; [|discriminate].
    destruct el as [e0|].
    + destruct (render_elems (Some (contractValueToString Keccak256 e0)) vs)
        as [[res|err]|] eqn:Er; [discriminate | | discriminate].
      intros [= <- <-]. split; [reflexivity|]. cbn [innermost].
      refine (render_elems_error _
                (fun err => ((abi.T (innermost e0) = abi.FixedPointTy
                              \/ abi.T (innermost e0) = abi.FunctionTy)
                             /\ err = UnhandledType (innermost e0))
                            \/ (abi.T (innermost e0) = abi.TupleTy
                                /\ err = UnknownType (innermost e0)))
                _ vs err Er).
      intros v s' e' Hv. exact (proj2 (IH e0 v s' e' Hv)).
    + destruct vs; cbn [render_elems]; discriminate.
  - (* tuple *)
    intros [= <- <-]. split; [reflexivity|]. right.
    destruct el; split; reflexivity.
  - destruct val; discriminate.
  - destruct (reflect.elems val) as [vs|]; [|discriminate].
    destruct (mapM reflect.Uint vs); discriminate.
  - destruct val; discriminate.
  - destruct val; discriminate.
  - intros [= <- <-]. split; [reflexivity|]. left.
    destruct el; split; auto.
  - intros [= <- <-]. split; [reflexivity|]. left.
    destruct el; split; auto.
Qed.

Lemma render_error_names_innermost_witness :
  EmptyString = EmptyString
  /\ (((abi.T (innermost (abi.mkType (Some (abi.mkType None 0 abi.FunctionTy)) 0 abi.SliceTy))
        = abi.FixedPointTy
        \/ abi.T (innermost (abi.mkType (Some (abi.mkType None 0 abi.FunctionTy)) 0 abi.SliceTy))
           = abi.FunctionTy)
       /\ UnhandledType (abi.mkType None 0 abi.FunctionTy)
          = UnhandledType (innermost (abi.mkType (Some (abi.mkType None 0 abi.FunctionTy)) 0 abi.SliceTy)))
      \/ (abi.T (innermost (abi.mkType (Some (abi.mkType None 0 abi.FunctionTy)) 0 abi.SliceTy))
          = abi.TupleTy
          /\ UnhandledType (abi.mkType None 0 abi.FunctionTy)
             = UnknownType (innermost (abi.mkType (Some (abi.mkType None 0 abi.FunctionTy)) 0 abi.SliceTy)))).
Proof.
  apply (render_error_names_innermost (fun _ => [])
           (abi.mkType (Some (abi.mkType None 0 abi.FunctionTy)) 0 abi.SliceTy)
           (VSlice [VBool true; VBool false])).
  reflexivity.
Defined.

(** ** contractUnpack beyond the zero-output case *)

Section UnpackProperties.

Variable zeroValue : abi.Type_ -> value.
Variable zeroElemValue : abi.Type_ -> option value.
Variable UnpackOne : abi.ABI -> value -> string -> list Z -> value * option error.
Variable UnpackMany :
  abi.ABI -> list value -> string -> list Z -> list value * option error.

Local Abbreviation unpack :=
  (contractUnpack zeroValue zeroElemValue UnpackOne UnpackMany).

(** X11: a name that is not in the method table gives a nil result and the
    error "The method ... does not exist", without a decoder invocation. *)
Theorem unpack_unknown_method (a : abi.ABI) (name : string) (data : list Z) :
  abi.Methods a !! name = None ->
  unpack a name data = (Return (None, Some (MethodDoesNotExist name)), []).
Proof. intros Hm. unfold contractUnpack. rewrite Hm. reflexivity. Qed.

(** X12: whatever the table, the name and the data, the decoder is invoked
    at most once, and then with the caller's name and data; a call that
    panics has not invoked it. *)
Theorem unpack_decodes_at_most_once (a : abi.ABI) (name : string) (data : list Z) :
  (length (snd (unpack a name data)) <= 1)%nat
  /\ Forall (fun c => call_name c = name /\ call_data c = data)
       (snd (unpack a name data))
  /\ (fst (unpack a name data) = Panic -> snd (unpack a name data) = []).
Proof.
  unfold contractUnpack.
  destruct (abi.Methods a !! name) as [method|];
    [|cbn; split; [lia | split; [constructor | reflexivity]]].
  destruct (abi.Outputs method) as [|o [|o' outs]].
  - cbn. split; [lia | split; [constructor | reflexivity]].
  - destruct (UnpackOne a (zeroValue (abi.Arg_Type o)) name data) as [v e].
    cbn. split; [lia | split; [repeat constructor | discriminate]].
  - destruct (mapM _ _) as [res|].
    + destruct (UnpackMany a res name data) as [vs e].
      cbn. split; [lia | split; [repeat constructor | discriminate]].
    + cbn. split; [lia | split; [constructor | reflexivity]].
Qed.

(** X13: for a method of the table the call returns a non-nil result, also
    when the decoder reports an error, unless it panics; it panics only for
    a method of two outputs or more, one of whose Go types has no element
    type. The result of a method with one output has one element. *)
Theorem unpack_known_method (a : abi.ABI) (name : string) (data : list Z)
    (method : abi.Method) :
  abi.Methods a !! name = Some method ->
  (fst (unpack a name data) = Panic
   /\ (2 <= length (abi.Outputs method))%nat
   /\ Exists (fun o => zeroElemValue (abi.Arg_Type o) = None) (abi.Outputs method))
  \/ (exists (res : list value) (err : option error),
        fst (unpack a name data) = Return (Some res, err)
        /\ (length (abi.Outputs method) = 1%nat -> length res = 1%nat)
        /\ (abi.Outputs method = [] -> res = [] /\ err = None)).
Proof.
  intros Hm. unfold contractUnpack. rewrite Hm.
  destruct (abi.Outputs method) as [|o [|o' outs]] eqn:Ho.
  - right. exists [], None. cbn. repeat split; discriminate.
  - right. destruct (UnpackOne a (zeroValue (abi.Arg_Type o)) name data) as [v e].
    exists [v], e. cbn. repeat split; discriminate.
  - destruct (mapM (fun o0 => zeroElemValue (abi.Arg_Type o0)) (o :: o' :: outs))
      as [res|] eqn:Em.
    + right. destruct (UnpackMany a res name data) as [vs e].
      exists vs, e. cbn. repeat split; discriminate.
    + left. cbn [fst]. split; [reflexivity|]. split; [cbn; lia|].
      apply mapM_None in Em. exact Em.
Qed.

End UnpackProperties.

Lemma unpack_unknown_method_witness :
  contractUnpack (fun _ => VBool false) (fun _ => None)
    (fun _ v _ _ => (v, None)) (fun _ vs _ _ => (vs, None))
    (abi.mkABI {[ "ping" := abi.mkMethod "ping" [] ]}) "pong" [1; 2]
  = (Return (None, Some (MethodDoesNotExist "pong")), []).
Proof. apply unpack_unknown_method. reflexivity. Defined.

Lemma unpack_known_method_witness :
  (fst (contractUnpack (fun _ => VBool false) (fun _ => None)
          (fun _ v _ _ => (v, Some (External "short data"))) (fun _ vs _ _ => (vs, None))
          (abi.mkABI {[ "get" := abi.mkMethod "get"
                           [abi.mkArgument "" (abi.mkType None 0 abi.BoolTy)] ]})
          "get" []) = Panic
   /\ (2 <= length (abi.Outputs (abi.mkMethod "get"
                           [abi.mkArgument "" (abi.mkType None 0 abi.BoolTy)])))%nat
   /\ Exists (fun o => (fun _ : abi.Type_ => @None value) (abi.Arg_Type o) = None)
        (abi.Outputs (abi.mkMethod "get"
                           [abi.mkArgument "" (abi.mkType None 0 abi.BoolTy)])))
  \/ (exists (res : list value) (err : option error),
        fst (contractUnpack (fun _ => VBool false) (fun _ => None)
               (fun _ v _ _ => (v, Some (External "short data"))) (fun _ vs _ _ => (vs, None))
               (abi.mkABI {[ "get" := abi.mkMethod "get"
                                [abi.mkArgument "" (abi.mkType None 0 abi.BoolTy)] ]})
               "get" []) = Return (Some res, err)
        /\ (length (abi.Outputs (abi.mkMethod "get"
                           [abi.mkArgument "" (abi.mkType None 0 abi.BoolTy)])) = 1%nat
            -> length res = 1%nat)
        /\ (abi.Outputs (abi.mkMethod "get"
                           [abi.mkArgument "" (abi.mkType None 0 abi.BoolTy)]) = []
            -> res = [] /\ err = None)).
Proof.
  apply (unpack_known_method (fun _ => VBool false) (fun _ => None)
           (fun _ v _ _ => (v, Some (External "short data"))) (fun _ vs _ _ => (vs, None))).
  reflexivity.
Defined.

(** ** CurrentBaseFee without and with a client *)

Section BaseFeeSequences.

Context {Client Block : Type}.
Variable StringToWei : string -> option Z * option error.
Variable CalcBaseFee : Block -> option Z.

Local Abbreviation call := (CurrentBaseFee Client Block StringToWei CalcBaseFee).
Local Abbreviation calls := (CurrentBaseFee_calls Client Block StringToWei CalcBaseFee).

Lemma no_client_cached_calls (ws : list (World Client Block)) (c : Conn Client) (fee : Z) :
  client Client c = None ->
  baseFeePerGas Client c = Some fee ->
  calls ws c = (repeat (Return (Some fee, None)) (length ws), c).
Proof.
  intros Hc Hf. induction ws as [|w ws IH]; [reflexivity|].
  cbn [CurrentBaseFee_calls]. unfold CurrentBaseFee at 1. rewrite Hc, Hf, IH.
  reflexivity.
Qed.

(** X14: without a client and with an empty cache, a call whose configured
    base fee parses returns that fee and caches it; every later call
    returns the same fee, whatever the configuration says by then. *)
Theorem basefee_config_read_once (w : World Client Block)
    (ws : list (World Client Block)) (c : Conn Client) (fee : Z) :
  client Client c = None ->
  baseFeePerGas Client c = None ->
  StringToWei (GetString Client Block w "base-fee-per-gas") = (Some fee, None) ->
  calls (w :: ws) c
  = (Return (Some fee, None) :: repeat (Return (Some fee, None)) (length ws),
     set_baseFeePerGas Client c (Some fee)).
Proof.
  intros Hc H0 Hw. cbn [CurrentBaseFee_calls].
  unfold CurrentBaseFee at 1. rewrite Hc, H0, Hw.
  cbn [baseFeePerGas set_baseFeePerGas].
  rewrite (no_client_cached_calls ws (set_baseFeePerGas Client c (Some fee)) fee);
    [reflexivity | exact Hc | reflexivity].
Qed.

(** X15: without a client, a call whose configured base fee does not
    parse returns the parser's error and leaves the cache empty, so that
    the next call parses the configuration again and, when that succeeds,
    returns the fee and caches it. *)
Theorem basefee_retry_after_bad_config (w1 w2 : World Client Block)
    (c : Conn Client) (e : error) (fee : Z) :
  client Client c = None ->
  baseFeePerGas Client c = None ->
  StringToWei (GetString Client Block w1 "base-fee-per-gas") = (None, Some e) ->
  StringToWei (GetString Client Block w2 "base-fee-per-gas") = (Some fee, None) ->
  call w1 c = (Return (None, Some e), c)
  /\ calls [w1; w2] c
     = ([Return (None, Some e); Return (Some fee, None)],
        set_baseFeePerGas Client c (Some fee)).
Proof.
  intros Hc H0 H1 H2.
  assert (Hset : set_baseFeePerGas Client c None = c).
  { destruct c as [cl f]. cbn in H0. subst f. reflexivity. }
  assert (Hfirst : call w1 c = (Return (None, Some e), c)).
  { unfold CurrentBaseFee. rewrite Hc, H0, H1, Hset. reflexivity. }
  split; [exact Hfirst|].
  cbn [CurrentBaseFee_calls]. rewrite Hfirst.
  unfold CurrentBaseFee. rewrite Hc, H0, H2. reflexivity.
Qed.

Lemma until_panic_returns {A : Type} (rs : list (outcome A)) :
  Forall (fun r => r <> Panic) rs -> until_panic rs = rs.
Proof.
  induction 1 as [|r rs Hr _ IH]; [reflexivity|].
  cbn [until_panic]. destruct r as [a|]; [rewrite IH; reflexivity | contradiction].
Qed.

(** X16: with a client, no sequence of calls changes the connection, so
    an empty cache stays empty and each call answers from the chain as if
    it were the first. The sequence ends with the first call that panics;
    when none does, its outcomes are those of the single calls. *)
Theorem basefee_client_never_caches (ws : list (World Client Block))
    (c : Conn Client) (cl : Client) :
  client Client c = Some cl ->
  calls ws c = (until_panic (map (fun w => fst (call w c)) ws), c)
  /\ (Forall (fun w => fst (call w c) <> Panic) ws ->
      calls ws c = (map (fun w => fst (call w c)) ws, c)).
Proof.
  intros Hc.
  assert (Hgen : calls ws c = (until_panic (map (fun w => fst (call w c)) ws), c)).
  { induction ws as [|w ws IH]; [reflexivity|].
    cbn [CurrentBaseFee_calls map until_panic].
    pose proof (client_path_keeps_conn StringToWei CalcBaseFee w c cl Hc) as Hk.
    destruct (call w c) as [r c'] eqn:E. cbn [fst snd] in *. subst c'.
    destruct r as [r|]; [|reflexivity].
    rewrite IH. reflexivity. }
  split; [exact Hgen|].
  intros Hall. rewrite Hgen, until_panic_returns; [reflexivity|].
  apply Forall_map. exact Hall.
Qed.

End BaseFeeSequences.

(** X17: with a client, what a call returns does not depend on the
    configuration or on the wei parser: two worlds that answer the chain
    requests alike give the same result, under any two parsers. *)
Theorem basefee_client_ignores_config (Client Block : Type)
    (StringToWei1 StringToWei2 : string -> option Z * option error)
    (CalcBaseFee : Block -> option Z) (w1 w2 : World Client Block)
    (c : Conn Client) (cl : Client) :
  client Client c = Some cl ->
  BlockNumber Client Block w1 = BlockNumber Client Block w2 ->
  BlockByNumber Client Block w1 = BlockByNumber Client Block w2 ->
  CurrentBaseFee Client Block StringToWei1 CalcBaseFee w1 c
  = CurrentBaseFee Client Block StringToWei2 CalcBaseFee w2 c.
Proof.
  intros Hc Hn Hb. unfold CurrentBaseFee. rewrite Hc, Hn, Hb. reflexivity.
Qed.

Lemma basefee_config_read_once_witness :
  CurrentBaseFee_calls unit Z one_gwei_parser london_fee
    (online_world :: [bad_config_world; offline_world]) fresh_conn
  = (Return (Some 1000000000, None)
       :: repeat (Return (Some 1000000000, None))
            (length [bad_config_world; offline_world]),
     set_baseFeePerGas unit fresh_conn (Some 1000000000)).
Proof. apply basefee_config_read_once; reflexivity. Defined.

Lemma basefee_retry_after_bad_config_witness :
  CurrentBaseFee unit Z one_gwei_parser london_fee bad_config_world fresh_conn
  = (Return (None, Some (External "failed to parse")), fresh_conn)
  /\ CurrentBaseFee_calls unit Z one_gwei_parser london_fee
       [bad_config_world; online_world] fresh_conn
     = ([Return (None, Some (External "failed to parse"));
         Return (Some 1000000000, None)],
        set_baseFeePerGas unit fresh_conn (Some 1000000000)).
Proof. apply basefee_retry_after_bad_config; reflexivity. Defined.

Lemma basefee_client_never_caches_witness :
  CurrentBaseFee_calls unit Z one_gwei_parser london_fee
    [online_world; offline_world; online_world]
    {| client := Some tt; baseFeePerGas := None |}
  = (until_panic
       (map (fun w => fst (CurrentBaseFee unit Z one_gwei_parser london_fee w
                             {| client := Some tt; baseFeePerGas := None |}))
          [online_world; offline_world; online_world]),
     {| client := Some tt; baseFeePerGas := None |})
  /\ (Forall (fun w => fst (CurrentBaseFee unit Z one_gwei_parser london_fee w
                              {| client := Some tt; baseFeePerGas := None |}) <> Panic)
        [online_world; offline_world; online_world] ->
      CurrentBaseFee_calls unit Z one_gwei_parser london_fee
        [online_world; offline_world; online_world]
        {| client := Some tt; baseFeePerGas := None |}
      = (map (fun w => fst (CurrentBaseFee unit Z one_gwei_parser london_fee w
                              {| client := Some tt; baseFeePerGas := None |}))
           [online_world; offline_world; online_world],
         {| client := Some tt; baseFeePerGas := None |})).
Proof. apply (basefee_client_never_caches _ _ _ _ tt). reflexivity. Defined.

Lemma basefee_client_ignores_config_witness :
  CurrentBaseFee unit Z one_gwei_parser london_fee online_world
    {| client := Some tt; baseFeePerGas := None |}
  = CurrentBaseFee unit Z (fun _ => (None, None)) london_fee bad_config_world
      {| client := Some tt; baseFeePerGas := None |}.
Proof.
  apply (basefee_client_ignores_config unit Z _ _ _ _ _ _ tt); reflexivity.
Defined.

(** ** The sign at the fixed widths *)

Lemma is_digit_not_sign (c : ascii) :
  is_digit c = true ->
  Ascii.eqb c "-" = false /\ Ascii.eqb c "+" = false /\ Ascii.eqb c " " = false.
Proof.
  intros Hd.
  repeat split;
    match goal with
    | |- Ascii.eqb c ?k = false =>
        destruct (Ascii.eqb c k) eqn:E; [|reflexivity];
        apply Ascii.eqb_eq in E; subst c; discriminate Hd
    end.
Qed.

Lemma all_digits_no_space (s : string) : all_digits s = true -> no_space s = true.
Proof.
  induction s as [|c rest IH]; [reflexivity|].
  cbn [all_digits no_space]. intros H. apply andb_true_iff in H as [Hc Hr].
  destruct (is_digit_not_sign c Hc) as (_ & _ & Hs).
  rewrite Hs, (IH Hr). reflexivity.
Qed.

Lemma SetString_signed_digits (ds : string) :
  all_digits ds = true -> ds <> EmptyString ->
  exists n : Z,
    big.SetString ds 10 = Some n
    /\ big.SetString (String "+" ds) 10 = Some n
    /\ big.SetString (String "-" ds) 10 = Some (- n).
Proof.
  intros Hd Hne. destruct (proj1 (scan_all_digits ds 0) Hd) as [n Hn].
  exists n. destruct ds as [|c rest]; [contradiction|].
  cbn [all_digits] in Hd. apply andb_true_iff in Hd as [Hc _].
  destruct (is_digit_not_sign c Hc) as (Hm & Hp & _).
  unfold big.SetString.
  change (Ascii.eqb "+" "-") with false. change (Ascii.eqb "+" "+") with true.
  change (Ascii.eqb "-" "-") with true. cbv iota.
  rewrite Hm, Hp, Hn. repeat split.
Qed.

(** X18: at the widths 8, 16, 32 and 64 the sign of the input is lost:
    "-" or "+" in front of the digits gives the same value as the digits
    alone, at a signed descriptor as at an unsigned one. *)
Theorem parse_narrow_ignores_sign (argType : abi.Type_) (ds : string) :
  abi.T argType = abi.IntTy \/ abi.T argType = abi.UintTy ->
  narrow_width (abi.Size argType) = true ->
  all_digits ds = true -> ds <> EmptyString ->
  contractStringToValue argType ("-" +:+ ds) = contractStringToValue argType ds
  /\ contractStringToValue argType ("+" +:+ ds) = contractStringToValue argType ds
  /\ exists v : value, contractStringToValue argType ds = Return (Some v, None).
Proof.
  intros HT Hw Hd Hne.
  destruct (SetString_signed_digits ds Hd Hne) as (n & H0 & Hp & Hm).
  pose proof (all_digits_no_space ds Hd) as Hs.
  change ("-" +:+ ds) with (String "-" ds). change ("+" +:+ ds) with (String "+" ds).
  assert (T0 : big.SetString (strings.Trim ds " ") 10 = Some n).
  { rewrite Trim_no_space by exact Hs. exact H0. }
  assert (Tp : big.SetString (strings.Trim (String "+" ds) " ") 10 = Some n).
  { rewrite Trim_no_space by (cbn [no_space]; rewrite Hs; reflexivity). exact Hp. }
  assert (Tm : big.SetString (strings.Trim (String "-" ds) " ") 10 = Some (- n)).
  { rewrite Trim_no_space by (cbn [no_space]; rewrite Hs; reflexivity). exact Hm. }
  assert (Habs : big.Uint64 (- n) = big.Uint64 n).
  { unfold big.Uint64. rewrite Z.abs_opp. reflexivity. }
  destruct argType as [el sz t]. cbn [abi.T abi.Size] in HT, Hw.
  destruct (parse_narrow_int el sz n ds Hw T0) as [I0 U0].
  destruct (parse_narrow_int el sz n (String "+" ds) Hw Tp) as [Ip Up].
  destruct (parse_narrow_int el sz (- n) (String "-" ds) Hw Tm) as [Im Um].
  rewrite Habs in Im, Um.
  destruct HT as [-> | ->].
  - rewrite Im, Ip, I0. repeat split. eexists. reflexivity.
  - rewrite Um, Up, U0. repeat split. eexists. reflexivity.
Qed.

Lemma parse_narrow_ignores_sign_witness :
  contractStringToValue (abi.mkType None 8 abi.IntTy) ("-" +:+ "5")
  = contractStringToValue (abi.mkType None 8 abi.IntTy) "5"
  /\ contractStringToValue (abi.mkType None 8 abi.IntTy) ("+" +:+ "5")
     = contractStringToValue (abi.mkType None 8 abi.IntTy) "5"
  /\ exists v : value,
       contractStringToValue (abi.mkType None 8 abi.IntTy) "5" = Return (Some v, None).
Proof.
  apply parse_narrow_ignores_sign;
    [left; reflexivity | reflexivity | reflexivity | discriminate].
Defined.

(** ** Strings *)

Lemma TrimLeft_head (s : string) : head_kept (strings.TrimLeft s " ").
Proof.
  induction s as [|c rest IH]; [exact I|].
  cbn [strings.TrimLeft]. destruct (strings.IndexByte " " c) eqn:E; [exact IH | exact E].
Qed.

Lemma TrimLeft_head_kept (s : string) : head_kept s -> strings.TrimLeft s " " = s.
Proof.
  destruct s as [|c rest]; [reflexivity|].
  cbn [head_kept strings.TrimLeft]. intros ->. reflexivity.
Qed.

Lemma TrimRight_head (s : string) : head_kept s -> head_kept (strings.TrimRight s " ").
Proof.
  destruct s as [|c rest]; [intros _; exact I|].
  cbn [head_kept strings.TrimRight]. intros Hc.
  destruct (strings.TrimRight rest " "); [rewrite Hc|]; exact Hc.
Qed.

Lemma TrimRight_idem (s : string) :
  strings.TrimRight (strings.TrimRight s " ") " " = strings.TrimRight s " ".
Proof.
  induction s as [|c rest IH]; [reflexivity|].
  cbn [strings.TrimRight].
  destruct (strings.TrimRight rest " ") as [|d r] eqn:Er.
  - destruct (strings.IndexByte " " c) eqn:Ec; [reflexivity|].
    cbn [strings.TrimRight]. rewrite Ec. reflexivity.
  - cbn [strings.TrimRight] in IH |- *. 
    destruct (strings.TrimRight r " ") as [|d' r'] eqn:Er'.
    + destruct (strings.IndexByte " " d); [discriminate IH|]. rewrite IH. reflexivity.
    + rewrite IH. reflexivity.
Qed.

Lemma Trim_idem (s : string) :
  strings.Trim (strings.Trim s " ") " " = strings.Trim s " ".
Proof.
  unfold strings.Trim.
  rewrite (TrimLeft_head_kept (strings.TrimRight (strings.TrimLeft s " ") " "))
    by apply TrimRight_head, TrimLeft_head.
  apply TrimRight_idem.
Qed.

(** X19: a String descriptor never makes the parser fail. The value is the
    input without the spaces around it; it renders as itself, and parsing
    it once more gives the same value. *)
Theorem parse_string_canonical (Keccak256 : list Z -> list Z)
    (argType : abi.Type_) (val : string) :
  abi.T argType = abi.StringTy ->
  contractStringToValue argType val
  = Return (Some (VString (strings.Trim val " ")), None)
  /\ contractValueToString Keccak256 argType (VString (strings.Trim val " "))
     = Return (strings.Trim val " ", None)
  /\ contractStringToValue argType (strings.Trim val " ")
     = Return (Some (VString (strings.Trim val " ")), None).
Proof.
  intros HT. destruct argType as [el sz t]. cbn [abi.T] in HT. subst t.
  unfold contractStringToValue. cbn [abi.T]. rewrite Trim_idem.
  repeat split.
Qed.

Lemma parse_string_canonical_witness :
  contractStringToValue (abi.mkType None 0 abi.StringTy) "  a b "
  = Return (Some (VString (strings.Trim "  a b " " ")), None)
  /\ contractValueToString (fun _ => []) (abi.mkType None 0 abi.StringTy)
       (VString (strings.Trim "  a b " " "))
     = Return (strings.Trim "  a b " " ", None)
  /\ contractStringToValue (abi.mkType None 0 abi.StringTy) (strings.Trim "  a b " " ")
     = Return (Some (VString (strings.Trim "  a b " " ")), None).
Proof. apply parse_string_canonical. reflexivity. Defined.

(** ** parseContract and contractParseAbi *)

Section ParseContractProperties.

Context {File : Type}.
Variable Open : string -> File + error.
Variable JSON : string + File -> abi.ABI * option error.
Variable ParseCombinedJSON : string -> string -> option util.Contract * option error.
Variable ErrCheck : option error -> string -> bool.

Local Abbreviation parse_contract :=
  (parseContract File Open JSON ParseCombinedJSON ErrCheck).

(** X20: without a combined-JSON file the contract name is lost: the
    returned contract is built anew after the name was stored, so its name
    is empty and the result is the same under any value of the name
    variable. Its binary is what the hex text decoded to, and the pointer
    is never nil. *)
Theorem parseContract_drops_name (vars : Vars) (binStr : string) :
  contractJSON vars = EmptyString ->
  (forall name : string,
     fst (parse_contract (set_contractName vars name) binStr)
     = fst (parse_contract vars binStr))
  /\ fst (parse_contract vars binStr) <> Some None
  /\ (forall c : util.Contract,
        fst (parse_contract vars binStr) = Some (Some c) ->
        util.Name c = EmptyString
        /\ util.Binary c = fst (hex.DecodeString (strings.TrimPrefix binStr "0x"))).
Proof.
  intros HJ. unfold parseContract, contractParseAbi.
  cbn [contractJSON contractName contractAbi err set_contractName set_err].
  rewrite HJ. cbn [String.eqb negb].
  destruct (hex.DecodeString (strings.TrimPrefix binStr "0x")) as [bin e].
  cbn [contractJSON contractName contractAbi err set_contractName set_err fst].
  destruct (ErrCheck (option_map HexError e) "Failed to decode data");
    [|cbn [fst]; split; [reflexivity | split; [discriminate | intros c [=]]]].
  destruct (negb (String.eqb (contractAbi vars) EmptyString)).
  - destruct (if strings.HasPrefix (contractAbi vars) "[" then _ else _) as [a e'].
    destruct (ErrCheck e' _); cbn [fst];
      [|split; [reflexivity | split; [discriminate | intros c [=]]]].
    split; [reflexivity|]. split; [discriminate|]. intros c [= <-]. split; reflexivity.
  - cbn [fst]. split; [reflexivity|]. split; [discriminate|].
    intros c [= <-]. split; reflexivity.
Qed.

(** X21: when [ErrCheck] ends the process on an error and returns
    otherwise, and neither a JSON file nor an ABI is given, the binary flag
    is accepted exactly when it is hex text of whole bytes, with or without
    "0x" in front; the contract then carries the decoded bytes, so that the
    hex of a byte sequence gives back that sequence. *)
Theorem parseContract_binary (vars : Vars) (binStr : string) :
  (forall e msg, ErrCheck (Some e) msg = false) ->
  (forall msg, ErrCheck None msg = true) ->
  contractJSON vars = EmptyString ->
  contractAbi vars = EmptyString ->
  (is_hex_text (strings.TrimPrefix binStr "0x") = false ->
     fst (parse_contract vars binStr) = None)
  /\ (is_hex_text (strings.TrimPrefix binStr "0x") = true ->
      fst (parse_contract vars binStr)
      = Some (Some (util.mkContract EmptyString
                      (fst (hex.DecodeString (strings.TrimPrefix binStr "0x")))
                      (abi.mkABI ∅))))
  /\ (forall bs : list Z,
        Forall is_byte bs ->
        fst (parse_contract vars ("0x" +:+ hex.EncodeToString bs))
        = Some (Some (util.mkContract EmptyString bs (abi.mkABI ∅)))).
Proof.
  intros Hstop Hgo HJ HA.
  assert (Hgen : forall s bin e,
            hex.DecodeString (strings.TrimPrefix s "0x") = (bin, e) ->
            fst (parse_contract vars s)
            = match e with
              | Some _ => None
              | None => Some (Some (util.mkContract EmptyString bin (abi.mkABI ∅)))
              end).
  { intros s bin e Hd. unfold parseContract.
    cbn [contractJSON contractName contractAbi err set_contractName set_err].
    rewrite HJ, Hd. cbn [String.eqb negb].
    cbn [contractJSON contractName contractAbi err set_contractName set_err].
    destruct e as [e|]; cbn [option_map].
    - rewrite Hstop. reflexivity.
    - rewrite Hgo, HA. reflexivity. }
  pose proof (DecodeString_is_hex_text (strings.TrimPrefix binStr "0x")) as Hiff.
  split; [|split].
  - intros Hn.
    destruct (hex.DecodeString (strings.TrimPrefix binStr "0x")) as [bin e] eqn:Hd.
    rewrite (Hgen _ _ _ Hd). cbn [snd] in Hiff.
    destruct e; [reflexivity|]. rewrite (proj2 Hiff eq_refl) in Hn. discriminate Hn.
  - intros Hy.
    destruct (hex.DecodeString (strings.TrimPrefix binStr "0x")) as [bin e] eqn:Hd.
    rewrite (Hgen _ _ _ Hd). cbn [fst snd] in *.
    rewrite (proj1 Hiff Hy). reflexivity.
  - intros bs Hb. destruct (DecodeString_EncodeToString bs Hb) as [Hd _].
    apply (Hgen ("0x" +:+ hex.EncodeToString bs) bs None).
    change ("0x" +:+ hex.EncodeToString bs)
      with (String "0" (String "x" (hex.EncodeToString bs))).
    rewrite TrimPrefix_0x. exact Hd.
Qed.

(** X22: with a combined-JSON file the binary argument is not looked at:
    the result is the same for every binary text. *)
Theorem parseContract_json_ignores_binary (vars : Vars) (bin1 bin2 : string) :
  contractJSON vars <> EmptyString ->
  parse_contract vars bin1 = parse_contract vars bin2.
Proof.
  intros HJ. unfold parseContract.
  destruct (String.eqb (contractJSON vars) EmptyString) eqn:E; [|reflexivity].
  apply String.eqb_eq in E. contradiction.
Qed.

Lemma TrimRight_no_separator (s : string) :
  filepath.hasSeparator s = false -> strings.TrimRight s "/" = s.
Proof.
  induction s as [|c rest IH]; [reflexivity|].
  cbn [filepath.hasSeparator]. intros H. apply orb_false_iff in H as [Hc Hr].
  cbn [strings.TrimRight strings.IndexByte]. rewrite (IH Hr), Hc.
  destruct rest; reflexivity.
Qed.

Lemma TrimRight_app_kept (a b cutset : string) :
  strings.TrimRight b cutset = b -> b <> EmptyString ->
  strings.TrimRight (a +:+ b) cutset = a +:+ b.
Proof.
  intros Hb Hne. induction a as [|c a IH]; [exact Hb|].
  change (String c a +:+ b) with (String c (a +:+ b)).
  cbn [strings.TrimRight]. rewrite IH.
  destruct (a +:+ b) eqn:E; [|reflexivity].
  destruct a; [cbn in E; contradiction | discriminate E].
Qed.

Lemma hasSeparator_app (a b : string) :
  filepath.hasSeparator (a +:+ b) = filepath.hasSeparator a || filepath.hasSeparator b.
Proof.
  induction a as [|c a IH]; [reflexivity|].
  change (String c a +:+ b) with (String c (a +:+ b)).
  cbn [filepath.hasSeparator]. rewrite IH. apply orb_assoc.
Qed.

Lemma lastElement_no_separator (s : string) :
  filepath.hasSeparator s = false -> filepath.lastElement s = s.
Proof.
  destruct s as [|c rest]; [reflexivity|].
  cbn [filepath.hasSeparator filepath.lastElement]. intros H.
  apply orb_false_iff in H as [Hc Hr]. rewrite Hr, Hc. reflexivity.
Qed.

Lemma lastElement_after_dir (dir tail : string) :
  filepath.hasSeparator tail = false ->
  filepath.lastElement (dir +:+ String "/" tail) = tail.
Proof.
  intros Ht. induction dir as [|c dir IH].
  - change (EmptyString +:+ String "/" tail) with (String "/" tail).
    cbn [filepath.lastElement]. rewrite Ht. reflexivity.
  - change (String c dir +:+ String "/" tail) with (String c (dir +:+ String "/" tail)).
    cbn [filepath.lastElement]. rewrite hasSeparator_app.
    cbn [filepath.hasSeparator]. change (Ascii.eqb "/" "/") with true.
    cbn [orb]. rewrite orb_true_r. exact IH.
Qed.

Lemma app_slash_assoc (dir tail : string) :
  dir +:+ String "/" tail = (dir +:+ "/") +:+ tail.
Proof.
  induction dir as [|c dir IH]; [reflexivity|].
  change (String c dir +:+ String "/" tail) with (String c (dir +:+ String "/" tail)).
  rewrite IH. reflexivity.
Qed.

Lemma Base_file (dir tail : string) :
  filepath.hasSeparator tail = false -> tail <> EmptyString ->
  filepath.Base tail = tail /\ filepath.Base (dir +:+ String "/" tail) = tail.
Proof.
  intros Ht Hne. pose proof (TrimRight_no_separator tail Ht) as Hr. split.
  - unfold filepath.Base. rewrite Hr, (lastElement_no_separator _ Ht).
    destruct tail; [contradiction | reflexivity].
  - unfold filepath.Base.
    assert (Hkeep : strings.TrimRight (dir +:+ String "/" tail) "/"
                    = dir +:+ String "/" tail).
    { rewrite app_slash_assoc. apply TrimRight_app_kept; assumption. }
    rewrite Hkeep, (lastElement_after_dir dir tail Ht).
    destruct (dir +:+ String "/" tail) eqn:E.
    { destruct dir; discriminate E. }
    destruct tail; [contradiction | reflexivity].
Qed.

Lemma Split_first (name ext : string) :
  strings.IndexByte name "." = false ->
  hd EmptyString (strings_Split (name +:+ String "." ext) ".") = name.
Proof.
  induction name as [|c name IH]; [reflexivity|].
  cbn [strings.IndexByte]. destruct (Ascii.eqb "." c) eqn:Ec; [discriminate|].
  intros Hn. change (String c name +:+ String "." ext)
    with (String c (name +:+ String "." ext)).
  cbn [strings_Split]. rewrite Ascii.eqb_sym, Ec.
  specialize (IH Hn).
  destruct (strings_Split (name +:+ String "." ext) ".") as [|piece pieces].
  - cbn in IH |- *. subst name. reflexivity.
  - cbn in IH |- *. subst piece. reflexivity.
Qed.

(** X23: with a combined-JSON file "Name.ext", alone or below a directory,
    and no contract name given, the contract looked up is "Name", the part
    of the file name before its first dot; the name variable keeps that
    value afterwards. A name that is given is used as it is. *)
Theorem parseContract_name_from_file (vars : Vars) (binStr dir name ext : string) :
  contractJSON vars = name +:+ String "." ext
  \/ contractJSON vars = dir +:+ String "/" (name +:+ String "." ext) ->
  filepath.hasSeparator name = false ->
  filepath.hasSeparator ext = false ->
  strings.IndexByte name "." = false ->
  (contractName vars = EmptyString ->
     parse_contract vars binStr
     = (if ErrCheck (snd (ParseCombinedJSON (contractJSON vars) name)) "Failed to parse JSON"
        then Some (fst (ParseCombinedJSON (contractJSON vars) name)) else None,
        set_err (set_contractName vars name)
          (snd (ParseCombinedJSON (contractJSON vars) name))))
  /\ (contractName vars <> EmptyString ->
      parse_contract vars binStr
      = (if ErrCheck (snd (ParseCombinedJSON (contractJSON vars) (contractName vars)))
              "Failed to parse JSON"
         then Some (fst (ParseCombinedJSON (contractJSON vars) (contractName vars)))
         else None,
         set_err vars (snd (ParseCombinedJSON (contractJSON vars) (contractName vars))))).
Proof.
  intros Hpath Hn He Hdot.
  assert (Htail : filepath.hasSeparator (name +:+ String "." ext) = false).
  { rewrite hasSeparator_app. cbn [filepath.hasSeparator].
    change (Ascii.eqb "." "/") with false. rewrite Hn, He. reflexivity. }
  assert (Hne : name +:+ String "." ext <> EmptyString).
  { destruct name; discriminate. }
  destruct (Base_file dir _ Htail Hne) as [B1 B2].
  assert (HB : hd EmptyString (strings_Split (filepath.Base (contractJSON vars)) ".") = name).
  { destruct Hpath as [-> | ->]; [rewrite B1 | rewrite B2]; apply Split_first, Hdot. }
  assert (HJ : String.eqb (contractJSON vars) EmptyString = false).
  { apply String.eqb_neq. destruct Hpath as [-> | ->]; [exact Hne|].
    destruct dir; discriminate. }
  unfold parseContract. rewrite HJ. cbn [negb]. split.
  - intros H0. rewrite H0. cbn [String.eqb]. rewrite HB.
    cbn [contractJSON contractName set_contractName].
    destruct (ParseCombinedJSON (contractJSON vars) name) as [contract e].
    cbn [fst snd]. destruct (ErrCheck e _); reflexivity.
  - intros H1. apply String.eqb_neq in H1. rewrite H1.
    destruct (ParseCombinedJSON (contractJSON vars) (contractName vars)) as [contract e].
    cbn [fst snd]. destruct (ErrCheck e _); reflexivity.
Qed.

(** X24: whether contractParseAbi reads its input as ABI text or opens it
    as a file is decided by the package variable alone. When the variable
    starts with "[" the file system is not used; when it does not, the
    text of the input is never read as an ABI, also when the input itself
    starts with "[", and a file that cannot be opened gives the zero ABI
    and the error of the open. *)
Theorem contractParseAbi_mode (vars : Vars) (input : string) :
  (strings.HasPrefix (contractAbi vars) "[" = true ->
     forall Open' : string -> File + error,
       contractParseAbi File Open' JSON vars input = JSON (inl input))
  /\ (strings.HasPrefix (contractAbi vars) "[" = false ->
      (forall JSON' : string + File -> abi.ABI * option error,
         (forall file, JSON' (inr file) = JSON (inr file)) ->
         contractParseAbi File Open JSON' vars input
         = contractParseAbi File Open JSON vars input)
      /\ (forall e, Open input = inr e ->
            contractParseAbi File Open JSON vars input = (abi.mkABI ∅, Some e))).
Proof.
  unfold contractParseAbi. split.
  - intros Hp Open'. rewrite Hp. reflexivity.
  - intros Hp. rewrite Hp. split.
    + intros JSON' Hsame. destruct (Open input); [apply Hsame | reflexivity].
    + intros e He. rewrite He. reflexivity.
Qed.

End ParseContractProperties.

Lemma parseContract_drops_name_witness :
  (forall name : string,
     fst (parseContract unit no_files any_JSON named_contract strict_ErrCheck
            (set_contractName (mkVars "" "" "Token" None) name) "0x6001")
     = fst (parseContract unit no_files any_JSON named_contract strict_ErrCheck
              (mkVars "" "" "Token" None) "0x6001"))
  /\ fst (parseContract unit no_files any_JSON named_contract strict_ErrCheck
            (mkVars "" "" "Token" None) "0x6001") <> Some None
  /\ (forall c : util.Contract,
        fst (parseContract unit no_files any_JSON named_contract strict_ErrCheck
               (mkVars "" "" "Token" None) "0x6001") = Some (Some c) ->
        util.Name c = EmptyString
        /\ util.Binary c = fst (hex.DecodeString (strings.TrimPrefix "0x6001" "0x"))).
Proof. apply parseContract_drops_name. reflexivity. Defined.

Lemma parseContract_binary_witness :
  (is_hex_text (strings.TrimPrefix "0x60z" "0x") = false ->
     fst (parseContract unit no_files any_JSON named_contract strict_ErrCheck
            (mkVars "" "" "" None) "0x60z") = None)
  /\ (is_hex_text (strings.TrimPrefix "0x60z" "0x") = true ->
      fst (parseContract unit no_files any_JSON named_contract strict_ErrCheck
             (mkVars "" "" "" None) "0x60z")
      = Some (Some (util.mkContract EmptyString
                      (fst (hex.DecodeString (strings.TrimPrefix "0x60z" "0x")))
                      (abi.mkABI ∅))))
  /\ (forall bs : list Z,
        Forall is_byte bs ->
        fst (parseContract unit no_files any_JSON named_contract strict_ErrCheck
               (mkVars "" "" "" None) ("0x" +:+ hex.EncodeToString bs))
        = Some (Some (util.mkContract EmptyString bs (abi.mkABI ∅)))).
Proof.
  apply parseContract_binary; [reflexivity | reflexivity | reflexivity | reflexivity].
Defined.

Lemma parseContract_json_ignores_binary_witness :
  parseContract unit no_files any_JSON named_contract strict_ErrCheck
    (mkVars "" "build/Token.json" "" None) "0x6001"
  = parseContract unit no_files any_JSON named_contract strict_ErrCheck
      (mkVars "" "build/Token.json" "" None) "zz".
Proof. apply parseContract_json_ignores_binary. discriminate. Defined.

Lemma parseContract_name_from_file_witness :
  (contractName (mkVars "" "build/out/Token.v2.json" "" None) = EmptyString ->
     parseContract unit no_files any_JSON named_contract strict_ErrCheck
       (mkVars "" "build/out/Token.v2.json" "" None) ""
     = (if strict_ErrCheck (snd (named_contract "build/out/Token.v2.json" "Token"))
             "Failed to parse JSON"
        then Some (fst (named_contract "build/out/Token.v2.json" "Token")) else None,
        set_err (set_contractName (mkVars "" "build/out/Token.v2.json" "" None) "Token")
          (snd (named_contract "build/out/Token.v2.json" "Token"))))
  /\ (contractName (mkVars "" "build/out/Token.v2.json" "" None) <> EmptyString ->
      parseContract unit no_files any_JSON named_contract strict_ErrCheck
        (mkVars "" "build/out/Token.v2.json" "" None) ""
      = (if strict_ErrCheck
              (snd (named_contract "build/out/Token.v2.json"
                      (contractName (mkVars "" "build/out/Token.v2.json" "" None))))
              "Failed to parse JSON"
         then Some (fst (named_contract "build/out/Token.v2.json"
                           (contractName (mkVars "" "build/out/Token.v2.json" "" None))))
         else None,
         set_err (mkVars "" "build/out/Token.v2.json" "" None)
           (snd (named_contract "build/out/Token.v2.json"
                   (contractName (mkVars "" "build/out/Token.v2.json" "" None)))))).
Proof.
  apply (parseContract_name_from_file no_files any_JSON named_contract strict_ErrCheck
           (mkVars "" "build/out/Token.v2.json" "" None) "" "build/out" "Token" "v2.json");
    [right; reflexivity | reflexivity | reflexivity | reflexivity].
Defined.

Lemma contractParseAbi_mode_witness :
  (strings.HasPrefix (contractAbi (mkVars "Token.abi" "" "" None)) "[" = true ->
     forall Open' : string -> unit + error,
       contractParseAbi unit Open' any_JSON (mkVars "Token.abi" "" "" None) "[]"
       = any_JSON (inl "[]"))
  /\ (strings.HasPrefix (contractAbi (mkVars "Token.abi" "" "" None)) "[" = false ->
      (forall JSON' : string + unit -> abi.ABI * option error,
         (forall file, JSON' (inr file) = any_JSON (inr file)) ->
         contractParseAbi unit no_files JSON' (mkVars "Token.abi" "" "" None) "[]"
         = contractParseAbi unit no_files any_JSON (mkVars "Token.abi" "" "" None) "[]")
      /\ (forall e, no_files "[]" = inr e ->
            contractParseAbi unit no_files any_JSON (mkVars "Token.abi" "" "" None) "[]"
            = (abi.mkABI ∅, Some e))).
Proof. apply (contractParseAbi_mode no_files any_JSON). Defined.

(** ** The parsed value fits the descriptor *)

Lemma is_byte_forallb (bs : list Z) : Forall is_byte bs -> forallb is_byteb bs = true.
Proof.
  induction 1 as [|b bs Hb _ IH]; [reflexivity|].
  cbn [forallb]. rewrite IH, andb_true_r.
  unfold is_byte in Hb. unfold is_byteb.
  apply andb_true_iff. split; [apply Z.leb_le | apply Z.ltb_lt]; lia.
Qed.

Lemma to_uint_range (w u : Z) : 0 <= w -> 0 <= to_uint w u < 2 ^ w.
Proof.
  intros Hw. unfold to_uint. apply Z.mod_pos_bound. apply Z.pow_pos_nonneg; lia.
Qed.

(** X25: at a descriptor of kind Bool, String, Address, Bytes or Hash, or
    of an integer kind with width 8, 16, 32 or 64, a value that the parser
    returns with a nil error is a value of that descriptor: a fixed-width
    integer lies in the range of its width, an address has 20 bytes, a hash
    32, and every byte is below 256. *)
Theorem parse_value_fits_descriptor (argType : abi.Type_) (val : string) (v : value) :
  abi.T argType <> abi.FixedBytesTy ->
  (abi.T argType = abi.IntTy \/ abi.T argType = abi.UintTy ->
   narrow_width (abi.Size argType) = true) ->
  contractStringToValue argType val = Return (Some v, None) ->
  representable argType v = true.
Proof.
  intros Hfb Hw. unfold contractStringToValue, representable.
  destruct (abi.T argType) eqn:HT; try discriminate; try contradiction.
  - (* signed *)
    specialize (Hw (or_introl eq_refl)).
    destruct (big.SetString (strings.Trim val " ") 10) as [z|]; [|discriminate].
    pose proof (narrow_width_cases _ Hw) as Hc.
    pose proof (to_int_range (abi.Size argType) (big.Uint64 z) ltac:(lia)) as Hr.
    assert (Hv : v = VInt (abi.Size argType) (to_int (abi.Size argType) (big.Uint64 z))
                 -> representable argType v = true).
    { intros ->. unfold representable. rewrite HT, Z.eqb_refl, Hw. cbn [andb].
      apply andb_true_iff. split; [apply Z.leb_le | apply Z.ltb_lt]; lia. }
    unfold representable in Hv. rewrite HT in Hv.
    destruct Hc as [W|[W|[W|W]]]; rewrite W in *; cbn [Z.eqb Pos.eqb];
      intros [= <-]; apply Hv; reflexivity.
  - (* unsigned *)
    specialize (Hw (or_intror eq_refl)).
    destruct (big.SetString (strings.Trim val " ") 10) as [z|]; [|discriminate].
    pose proof (narrow_width_cases _ Hw) as Hc.
    pose proof (to_uint_range (abi.Size argType) (big.Uint64 z) ltac:(lia)) as Hr.
    assert (Hv : v = VUint (abi.Size argType) (to_uint (abi.Size argType) (big.Uint64 z))
                 -> representable argType v = true).
    { intros ->. unfold representable. rewrite HT, Z.eqb_refl, Hw. cbn [andb].
      apply andb_true_iff. split; [apply Z.leb_le | apply Z.ltb_lt]; lia. }
    unfold representable in Hv. rewrite HT in Hv.
    destruct Hc as [W|[W|[W|W]]]; rewrite W in *; cbn [Z.eqb Pos.eqb];
      intros [= <-]; apply Hv; reflexivity.
  - (* bool *)
    destruct (_ || _); intros [= <-]; reflexivity.
  - (* string *)
    intros [= <-]. reflexivity.
  - (* address *)
    intros [= <-]. apply andb_true_iff. split.
    + apply Nat.eqb_eq, SetBytes_length.
    + apply is_byte_forallb, SetBytes_bytes, DecodeString_bytes.
  - (* bytes *)
    pose proof (DecodeString_bytes (strings.TrimPrefix (strings.Trim val " ") "0x")) as Hb.
    destruct (hex.DecodeString (strings.TrimPrefix (strings.Trim val " ") "0x"))
      as [decoded e].
    intros [= <- _]. apply is_byte_forallb. exact Hb.
  - (* hash *)
    intros [= <-]. apply andb_true_iff. split.
    + apply Nat.eqb_eq, SetBytes_length.
    + apply is_byte_forallb, SetBytes_bytes, DecodeString_bytes.
Qed.

Lemma parse_value_fits_descriptor_witness :
  representable (abi.mkType None 8 abi.IntTy) (VInt 8 (-56)) = true.
Proof.
  apply (parse_value_fits_descriptor (abi.mkType None 8 abi.IntTy) " 200");
    [discriminate | reflexivity | reflexivity].
Defined.
